(** * HeaderReformat: the header extractor of etc/HeaderReformat.py

    The script reads one file, looks for its leading block comments with a
    cascade of regular-expression searches, and prints one copyright line.

    The development has three layers:
    - [Re]: the fragment of Python's [re] engine the script's patterns use
      (a backtracking matcher with capture groups, greedy and lazy
      repetition of one-character items, optional items, [DOTALL]);
    - [Py]: the effects of the script (the file store, standard output,
      exceptions) as a small state-and-exception monad;
    - the script itself, statement by statement, and the properties of it.

    The script is a Python 2 program: it searches [str] patterns in an
    [mmap] buffer, so strings are byte strings, [\s] is the ASCII white
    space class and [.] excludes only the line feed. *)

From Stdlib Require Import String Ascii List Bool Arith Lia.
Import ListNotations.
Local Open Scope list_scope.
Local Open Scope string_scope.

(** ** Byte strings *)

Definition LF : string := String "010"%char EmptyString.
Definition CR : string := String "013"%char EmptyString.

(** [drop_prefix l s] is [Some s'] when [s = l ++ s']. *)
Fixpoint drop_prefix (l s : string) : option string :=
  match l with
  | EmptyString => Some s
  | String a l' =>
      match s with
      | EmptyString => None
      | String b s' => if Ascii.eqb a b then drop_prefix l' s' else None
      end
  end.

(** [occurs lit s]: [lit] is a substring of [s] (Python's [lit in s]). *)
Fixpoint occurs (lit s : string) : bool :=
  match drop_prefix lit s with
  | Some _ => true
  | None => match s with
            | EmptyString => false
            | String _ s' => occurs lit s'
            end
  end.

(** [absent lit pre rest]: in [pre ++ rest], no occurrence of [lit] starts
    inside [pre]; what follows [pre] is then the first place where [lit]
    can start. *)
Fixpoint absent (lit pre rest : string) : bool :=
  match pre with
  | EmptyString => true
  | String a pre' =>
      match drop_prefix lit (pre ++ rest) with
      | Some _ => false
      | None => absent lit pre' rest
      end
  end.

(** [all_chars f s]: every character of [s] satisfies [f]. *)
Fixpoint all_chars (f : ascii -> bool) (s : string) : bool :=
  match s with
  | EmptyString => true
  | String a s' => f a && all_chars f s'
  end.

Definition not_lf (a : ascii) : bool := negb (Ascii.eqb a "010").

(** ** The regular-expression engine *)

Module Re.

(** One-character items. *)
Inductive cclass : Type :=
| Dot                      (* .      *)
| Space                    (* \s     *)
| Digit                    (* \d, [0-9] *)
| OneOf (l : list ascii).  (* [...]  *)

Definition is_space (a : ascii) : bool :=
  let n := nat_of_ascii a in
  Nat.eqb n 32 || (Nat.leb 9 n && Nat.leb n 13).

Definition is_digit (a : ascii) : bool :=
  let n := nat_of_ascii a in
  Nat.leb 48 n && Nat.leb n 57.

Definition cmatch (dotall : bool) (cl : cclass) (a : ascii) : bool :=
  match cl with
  | Dot => dotall || not_lf a
  | Space => is_space a
  | Digit => is_digit a
  | OneOf l => existsb (Ascii.eqb a) l
  end.

(** Patterns.  Every repetition in the script's patterns is over a
    one-character item, so [Star] and [StarLazy] take a class; [x+] and
    [x{n,n}] are the derived forms [Plus] and [Times] below. *)
Inductive regex : Type :=
| Eps
| Str (l : string)              (* literal text              *)
| Chr (cl : cclass)             (* one character of a class  *)
| Cat (r1 r2 : regex)           (* r1 r2                     *)
| Grp (n : nat) (r : regex)     (* ( r ), group number n     *)
| Opt (r : regex)               (* r ?   (greedy)            *)
| Star (cl : cclass)            (* c *   (greedy)            *)
| StarLazy (cl : cclass).       (* c *?  (lazy)              *)

Definition Plus (cl : cclass) : regex := Cat (Chr cl) (Star cl).

Fixpoint Times (n : nat) (cl : cclass) : regex :=
  match n with
  | 0 => Eps
  | S n' => Cat (Chr cl) (Times n' cl)
  end.

(** Captured groups, most recent binding first. *)
Definition groups : Type := list (nat * string).

(** [group m n] is Python's [m.group(n)]: [None] when group [n] took no
    part in the match. *)
Fixpoint group (m : groups) (n : nat) : option string :=
  match m with
  | [] => None
  | (i, w) :: m' => if Nat.eqb i n then Some w else group m' n
  end.

(** Greedy repetition: as many characters as possible, then one fewer, ...
    The continuation receives the text consumed and the text left. *)
Fixpoint star_max (dotall : bool) (cl : cclass) (s : string)
    (k : string -> string -> option groups) : option groups :=
  match s with
  | String a s' =>
      if cmatch dotall cl a then
        match star_max dotall cl s' (fun w r => k (String a w) r) with
        | Some m => Some m
        | None => k EmptyString s
        end
      else k EmptyString s
  | EmptyString => k EmptyString s
  end.

(** Lazy repetition: as few characters as possible, then one more, ... *)
Fixpoint star_min (dotall : bool) (cl : cclass) (s : string)
    (k : string -> string -> option groups) : option groups :=
  match k EmptyString s with
  | Some m => Some m
  | None =>
      match s with
      | String a s' =>
          if cmatch dotall cl a
          then star_min dotall cl s' (fun w r => k (String a w) r)
          else None
      | EmptyString => None
      end
  end.

(** The backtracking matcher, anchored at the start of [s].  [k w s' m] is
    the rest of the match: [w] is the text this pattern consumed, [s'] the
    text left, [m] the groups bound so far.  Alternatives are tried in
    Python's order and the first that lets [k] succeed wins. *)
Fixpoint mre (dotall : bool) (r : regex) (s : string) (m : groups)
    (k : string -> string -> groups -> option groups) : option groups :=
  match r with
  | Eps => k EmptyString s m
  | Str l =>
      match drop_prefix l s with
      | Some s' => k l s' m
      | None => None
      end
  | Chr cl =>
      match s with
      | String a s' =>
          if cmatch dotall cl a then k (String a EmptyString) s' m else None
      | EmptyString => None
      end
  | Cat r1 r2 =>
      mre dotall r1 s m (fun w1 s1 m1 =>
      mre dotall r2 s1 m1 (fun w2 s2 m2 => k (w1 ++ w2) s2 m2))
  | Grp n r1 =>
      mre dotall r1 s m (fun w s1 m1 => k w s1 ((n, w) :: m1))
  | Opt r1 =>
      match mre dotall r1 s m k with
      | Some m' => Some m'
      | None => k EmptyString s m
      end
  | Star cl => star_max dotall cl s (fun w s1 => k w s1 m)
  | StarLazy cl => star_min dotall cl s (fun w s1 => k w s1 m)
  end.

(** The end of a pattern: the match succeeds and group 0 is its text. *)
Definition accept (w _ : string) (m : groups) : option groups :=
  Some ((0, w) :: m).

Definition match_here (dotall : bool) (r : regex) (s : string) : option groups :=
  mre dotall r s [] accept.

(** A compiled pattern: [re.compile(pattern, flags)]. *)
Record pattern : Type := compile { pat_re : regex; pat_dotall : bool }.

(** [p.search(s)]: the match at the leftmost position that has one. *)
Fixpoint search_from (dotall : bool) (r : regex) (s : string) : option groups :=
  match match_here dotall r s with
  | Some m => Some m
  | None =>
      match s with
      | String _ s' => search_from dotall r s'
      | EmptyString => None
      end
  end.

Definition search (p : pattern) (s : string) : option groups :=
  search_from (pat_dotall p) (pat_re p) s.

(** [re.sub(pattern, repl, s)] for a pattern that is one character class:
    every character of the class is replaced by [repl]. *)
Fixpoint sub_class (cl : cclass) (repl s : string) : string :=
  match s with
  | EmptyString => EmptyString
  | String a s' =>
      if cmatch false cl a then repl ++ sub_class cl repl s'
      else String a (sub_class cl repl s')
  end.

End Re.

Import Re.

Declare Scope re_scope.
Delimit Scope re_scope with re.
Bind Scope re_scope with regex.
Infix "+++" := Cat (at level 60, right associativity) : re_scope.

(** ** Effects of the script *)

Module Py.

(** The exceptions the script can end with. *)
Inductive exn : Type :=
| IOError (filename : string)     (* open: no such file              *)
| ValueError (msg : string)       (* mmap.mmap on an empty file      *)
| TypeError                       (* None where a string is expected *)
| Exception (msg : string).       (* the script's own raise          *)

(** The world of one invocation: the file store and what was printed. *)
Record world : Type := mkWorld {
  files : string -> option string;
  stdout : list string
}.

Inductive res (A : Type) : Type :=
| Ret (a : A)
| Raise (e : exn).
Arguments Ret {A} a.
Arguments Raise {A} e.

Definition M (A : Type) : Type := world -> world * res A.

Definition ret {A} (a : A) : M A := fun w => (w, Ret a).

Definition bind {A B} (c : M A) (f : A -> M B) : M B :=
  fun w =>
    match c w with
    | (w', Ret a) => f a w'
    | (w', Raise e) => (w', Raise e)
    end.

Definition raise {A} (e : exn) : M A := fun w => (w, Raise e).

(** A Python value that is a string or [None]. *)
Definition pyval : Type := option string.

Definition py_str (v : pyval) : string :=
  match v with
  | Some s => s
  | None => "None"
  end.

(** [print(v)]: one more line on standard output. *)
Definition print (v : pyval) : M unit :=
  fun w => (mkWorld (files w) (stdout w ++ [py_str v]), Ret tt).

(** [open(filename, 'r+')]: the file has to exist; it is not truncated. *)
Definition open_rplus (filename : string) : M string :=
  fun w =>
    match files w filename with
    | Some _ => (w, Ret filename)
    | None => (w, Raise (IOError filename))
    end.

(** [mmap.mmap(f.fileno(), 0)]: the whole file; an empty file cannot be
    mapped. *)
Definition mmap (f : string) : M string :=
  fun w =>
    match files w f with
    | Some EmptyString => (w, Raise (ValueError "cannot mmap an empty file"))
    | Some data => (w, Ret data)
    | None => (w, Raise (IOError f))
    end.

(** [a + b] on strings. *)
Definition add (a b : pyval) : M pyval :=
  match a, b with
  | Some x, Some y => ret (Some (x ++ y))
  | _, _ => raise TypeError
  end.

(** [p.search(v)] *)
Definition re_search (p : pattern) (v : pyval) : M (option groups) :=
  match v with
  | Some s => ret (search p s)
  | None => raise TypeError
  end.

(** [re.sub('[...]', repl, v)] *)
Definition re_sub (cl : cclass) (repl : string) (v : pyval) : M pyval :=
  match v with
  | Some s => ret (Some (sub_class cl repl s))
  | None => raise TypeError
  end.

End Py.

Import Py.

Notation "x <- c ;; k" := (bind c (fun x => k))
  (at level 61, c at next level, right associativity).
Notation "c ;; k" := (bind c (fun _ => k))
  (at level 61, right associativity).

(** ** The script *)

Local Open Scope re_scope.

(** Each pattern is quoted above its translation.  In these quotations a
    blank separates a star from a closing parenthesis that follows it; the
    pattern of the script has none. *)

(** [_warning]: the replacement of [warnings.showwarning]; it prints the
    bare message. *)
Definition _warning (message : string) : M unit := print (Some message).

(** [warnings.warn(message)]: each call site is reached at most once in a
    run, so the message is always shown, through [_warning]. *)
Definition warn (message : string) : M unit := _warning message.

(** '/\*(.*?)\*/\r?\n\n?/\*(.*?)\*/', re.DOTALL *)
Definition p_double : pattern :=
  compile (Str "/*" +++ Grp 1 (StarLazy Dot) +++ Str "*/" +++ Opt (Str CR)
           +++ Str LF +++ Opt (Str LF) +++ Str "/*" +++ Grp 2 (StarLazy Dot)
           +++ Str "*/") true.

(** '\(C\)' *)
Definition p_C : pattern := compile (Str "(C)") false.

(** '\(C\)\s*Copyright\s*(\d+)\-?(\d+)?,\s*(by)?\s*(.* )?' *)
Definition p_copyright : pattern :=
  compile (Str "(C)" +++ Star Space +++ Str "Copyright" +++ Star Space
           +++ Grp 1 (Plus Digit) +++ Opt (Str "-") +++ Opt (Grp 2 (Plus Digit))
           +++ Str "," +++ Star Space +++ Opt (Grp 3 (Str "by")) +++ Star Space
           +++ Opt (Grp 4 (Star Dot))) false.

(** '(.* )(\sand)' *)
Definition p_and : pattern :=
  compile (Grp 1 (Star Dot) +++ Grp 2 (Chr Space +++ Str "and")) false.

(** '[.]' *)
Definition c_period : cclass := OneOf ["."%char].

(** 'Original\sAuthor:\s*(.* )' *)
Definition p_original : pattern :=
  compile (Str "Original" +++ Chr Space +++ Str "Author:" +++ Star Space
           +++ Grp 1 (Star Dot)) false.

(** '\@author\s*(Original)?(\:)?\s*(.* )' *)
Definition p_author : pattern :=
  compile (Str "@author" +++ Star Space +++ Opt (Grp 1 (Str "Original"))
           +++ Opt (Grp 2 (Str ":")) +++ Star Space +++ Grp 3 (Star Dot)) false.

(** '(.* )?([0-9]{4,4})(.* )?Initial' *)
Definition p_initial : pattern :=
  compile (Opt (Grp 1 (Star Dot)) +++ Grp 2 (Times 4 Digit)
           +++ Opt (Grp 3 (Star Dot)) +++ Str "Initial") false.

(** '\(C\).*?[0-9]{4,4}-([0-9]{4,4})' *)
Definition p_range : pattern :=
  compile (Str "(C)" +++ StarLazy Dot +++ Times 4 Digit +++ Str "-"
           +++ Grp 1 (Times 4 Digit)) false.

(** '/\*\s*This\sprogram(.*?)\*/', re.DOTALL *)
Definition p_single : pattern :=
  compile (Str "/*" +++ Star Space +++ Str "This" +++ Chr Space
           +++ Str "program" +++ Grp 1 (StarLazy Dot) +++ Str "*/") true.

(** '\@author\s*(Original)?(\:)?\s*(.*?)' *)
Definition p_author_lazy : pattern :=
  compile (Str "@author" +++ Star Space +++ Opt (Grp 1 (Str "Original"))
           +++ Opt (Grp 2 (Str ":")) +++ Star Space +++ Grp 3 (StarLazy Dot))
          false.

(** '\@since(.*?)([0-9]{4,4})' *)
Definition p_since : pattern :=
  compile (Str "@since" +++ Grp 1 (StarLazy Dot) +++ Grp 2 (Times 4 Digit))
          false.

Definition default_authors : string := "Barak Naveh".
Definition default_year : string := "2016".

(** The warning and error messages of the script. *)
Definition msg_no_author_2nd (filename : string) : string :=
  "Cannot find original author in 2nd header: " ++ filename
  ++ "; using default author" ++ LF.
Definition msg_no_year_2nd (filename : string) : string :=
  "Cannot find Initial version in 2nd header: " ++ filename
  ++ "; using default year" ++ LF.
Definition msg_no_author (filename : string) : string :=
  "Cannot find author in data: " ++ filename ++ "; using default author" ++ LF.
Definition msg_no_year (filename : string) : string :=
  "Cannot find year in data: " ++ filename ++ "; using default year" ++ LF.
Definition msg_no_headers (filename : string) : string :=
  "Did not find any headers: " ++ filename ++ LF.
Definition msg_cannot_parse (filename : string) : string :=
  "Cannot parse copyright statement in 2nd header: " ++ filename ++ LF.

(** The branch of a double header whose second block has a [(C)]. *)
Definition copyright_branch (filename : string) (secondHeader : pyval)
  : M (pyval * pyval) :=
  p <- re_search p_copyright secondHeader ;;
  match p with
  | None =>
      msg <- add (Some (msg_cannot_parse filename)) secondHeader ;;
      raise (Exception (py_str msg))
  | Some p =>
      let year := group p 1 in
      let authors := group p 4 in
      p <- re_search p_and authors ;;
      let authors := match p with
                     | Some p => group p 1
                     | None => authors
                     end in
      authors <- re_sub c_period "" authors ;;
      ret (authors, year)
  end.

(** The branch of a double header whose second block has no [(C)]. *)
Definition original_branch (filename data : string)
    (authors year firstHeader secondHeader : pyval) : M (pyval * pyval) :=
  p <- re_search p_original secondHeader ;;
  p2 <- re_search p_author (Some data) ;;
  authors <-
    match p, p2 with
    | Some p, _ => ret (group p 1)
    | None, Some p2 => ret (group p2 3)
    | None, None => warn (msg_no_author_2nd filename) ;; ret authors
    end ;;
  p <- re_search p_initial secondHeader ;;
  match p with
  | Some p => ret (authors, group p 2)
  | None =>
      p <- re_search p_range firstHeader ;;
      match p with
      | None => warn (msg_no_year_2nd filename) ;; ret (authors, year)
      | Some p => ret (authors, group p 1)
      end
  end.

(** The branch of a single header.  The author found is assigned to the
    variable [author]; [authors] is what the script prints. *)
Definition single_branch (filename data : string) (authors year : pyval)
  : M (pyval * pyval) :=
  p <- re_search p_author_lazy (Some data) ;;
  author <-
    match p with
    | Some p => ret (group p 3)
    | None => warn (msg_no_author filename) ;; ret None
    end ;;
  p <- re_search p_since (Some data) ;;
  match p with
  | Some p => ret (authors, group p 2)
  | None => warn (msg_no_year filename) ;; ret (authors, year)
  end.

(** The body of the [with] block: the cascade, from the mapped [data] and
    the default [authors] and [year] to their final values. *)
Definition extract (filename data : string) (authors year : pyval)
  : M (pyval * pyval) :=
  p <- re_search p_double (Some data) ;;
  match p with
  | Some p =>
      let firstHeader := group p 1 in
      let secondHeader := group p 2 in
      p <- re_search p_C secondHeader ;;
      match p with
      | Some _ => copyright_branch filename secondHeader
      | None => original_branch filename data authors year
                  firstHeader secondHeader
      end
  | None =>
      p <- re_search p_single (Some data) ;;
      match p with
      | Some p =>
          let firstHeader := group p 1 in
          single_branch filename data authors year
      | None => warn (msg_no_headers filename) ;; ret (authors, year)
      end
  end.

(** "(C) Copyright "+year+"-2016, by "+authors+", and Contributors."+" "+filename *)
Definition copyright_line (year authors filename : pyval) : M pyval :=
  s <- add (Some "(C) Copyright ") year ;;
  s <- add s (Some "-2016, by ") ;;
  s <- add s authors ;;
  s <- add s (Some ", and Contributors.") ;;
  s <- add s (Some " ") ;;
  add s filename.

(** The whole script, for [sys.argv[1] = filename]. *)
Definition HeaderReformat (filename : string) : M unit :=
  let authors := Some default_authors in
  let year := Some default_year in
  f <- open_rplus filename ;;
  data <- mmap f ;;
  ay <- extract filename data authors year ;;
  let '(authors, year) := ay in
  line <- copyright_line year authors (Some filename) ;;
  print line.

(** One invocation on a file store: the store afterwards, what was printed,
    and how the process ended. *)
Definition run (filename : string) (fs : string -> option string)
  : (string -> option string) * list string * res unit :=
  let '(w, r) := HeaderReformat filename (mkWorld fs []) in
  (files w, stdout w, r).

(** The line the script prints for [year] and [authors]. *)
Definition line_of (year authors filename : string) : string :=
  "(C) Copyright " ++ year ++ "-2016, by " ++ authors
  ++ ", and Contributors." ++ " " ++ filename.

(** A store with one file. *)
Definition one_file (filename data : string) : string -> option string :=
  fun f => if String.eqb f filename then Some data else None.

(** ** Vocabulary of the properties *)

(** [binds r n]: every match of [r] binds group [n]. *)
Fixpoint binds (r : regex) (n : nat) : bool :=
  match r with
  | Cat r1 r2 => binds r1 n || binds r2 n
  | Grp i r1 => Nat.eqb i n || binds r1 n
  | _ => false
  end.

(** [lang dotall r w]: [w] is a text the pattern [r] can consume. *)
Fixpoint lang (dotall : bool) (r : regex) (w : string) : Prop :=
  match r with
  | Eps => w = ""
  | Str l => w = l
  | Chr cl => exists a, w = String a "" /\ cmatch dotall cl a = true
  | Cat r1 r2 =>
      exists w1 w2, w = w1 ++ w2 /\ lang dotall r1 w1 /\ lang dotall r2 w2
  | Grp _ r1 => lang dotall r1 w
  | Opt r1 => w = "" \/ lang dotall r1 w
  | Star cl | StarLazy cl => all_chars (cmatch dotall cl) w = true
  end.

(** [reads_only c]: running [c] leaves the file store as it was. *)
Definition reads_only {A} (c : M A) : Prop :=
  forall w, files (fst (c w)) = files w.

(** The three components of a run. *)
Definition files_after (x : (string -> option string) * list string * res unit) :=
  fst (fst x).
Definition output (x : (string -> option string) * list string * res unit) :=
  snd (fst x).
Definition status (x : (string -> option string) * list string * res unit) :=
  snd x.

(** The five warnings of the script. *)
Definition is_warning (filename s : string) : Prop :=
  In s [msg_no_author_2nd filename; msg_no_year_2nd filename;
        msg_no_author filename; msg_no_year filename;
        msg_no_headers filename].

(** The one fatal case: the second block of a double header has a [(C)]
    that the copyright pattern cannot parse. *)
Definition fatal_header (data : string) : Prop :=
  exists m sh,
    search p_double data = Some m /\ group m 2 = Some sh /\
    occurs "(C)" sh = true /\ search p_copyright sh = None.

(** ** Sample files *)

(** A file with one header, an author tag and a since tag. *)
Definition file_single_header : string :=
"/* This program is free software. */
package org.example;

/**
 * A list of things.
 *
 * @author John Smith
 * @since 1999
 */
public class Things {}
".

(** A double header whose second block has a [(C)] and no copyright
    statement. *)
Definition file_unparsable_copyright : string :=
"/* First block. */
/* (C) 2003 Somebody */
class A {}
".

(** What the double-header pattern accepts between the two blocks: a line
    break, LF or CR LF, and then at most one more LF. *)
Definition header_gap (sep : string) : Prop :=
  sep = LF \/ sep = LF ++ LF \/ sep = CR ++ LF \/ sep = CR ++ LF ++ LF.

(** Two blocks with [sep] between, at the start of a file. *)
Definition two_blocks (h1 sep h2 rest : string) : string :=
  "/*" ++ h1 ++ "*/" ++ sep ++ "/*" ++ h2 ++ "*/" ++ rest.

(** [n] empty lines. *)
Fixpoint blank_lines (n : nat) : string :=
  match n with
  | 0 => ""
  | S n' => LF ++ blank_lines n'
  end.

(** Where a line ends: at the end of the text, at an LF, or at a CR LF. *)
Definition line_end (tail : string) : Prop :=
  tail = "" \/ (exists t, tail = LF ++ t) \/ (exists t, tail = CR ++ LF ++ t).

(** The copyright statement of the sample header in the script. *)
Definition stmt_2003 : string :=
  "(C) Copyright 2003-2008, by Barak Naveh and Contributors.".

(** The sample header quoted at the end of the script: its first block,
    and its second block before and after the copyright statement. *)
Definition sample_first_block : string :=
" ==========================================
 * JGraphT : a free Java graph-theory library
 * ==========================================
 *
 * Project Info:  http://jgrapht.sourceforge.net/
 * Project Creator:  Barak Naveh (http://sourceforge.net/users/barak_naveh)
 *
 * (C) Copyright 2003-2008, by Barak Naveh and Contributors.
 *
 * This program and the accompanying materials are dual-licensed under
 * either
 *
 * (a) the terms of the GNU Lesser General Public License version 2.1
 * as published by the Free Software Foundation, or (at your option) any
 * later version.
 *
 * or (per the licensee's choosing)
 *
 * (b) the terms of the Eclipse Public License v1.0 as published by
 * the Eclipse Foundation.
 ".

Definition sample_second_block_start : string :=
" ------------------
 * DirectedGraph.java
 * ------------------
 * ".

Definition sample_second_block_end : string :=
"
 *
 * Original Author:  Barak Naveh
 * Contributor(s):   Christian Hammer
 *
 * $Id$
 *
 * Changes
 * -------
 * 24-Jul-2003 : Initial revision (BN);
 * 11-Mar-2004 : Made generic (CH);
 * 07-May-2006 : Changed from List<Edge> to Set<Edge> (JVS);
 *
 ".

(** [\sand] matches at the start of [s]. *)
Definition space_and_at (s : string) : bool :=
  match s with
  | String a s' =>
      is_space a && match drop_prefix "and" s' with
                    | Some _ => true
                    | None => false
                    end
  | EmptyString => false
  end.

(** [\sand] matches nowhere in [s]. *)
Fixpoint no_space_and (s : string) : bool :=
  negb (space_and_at s) &&
  match s with
  | EmptyString => true
  | String _ s' => no_space_and s'
  end.

(** A double header whose copyright statement names two authors. *)
Definition file_two_authors : string :=
  two_blocks " First block. " LF
    (" (C) Copyright 2003, by Alice and Bob and Contributors" ++ LF ++ " ")
    LF.

(** A copyright statement whose authors are on the line after it. *)
Definition statement_first_line : string := " (C) Copyright 2003-2008, by".
Definition statement_second_line : string := "   Alice Smith".
Definition file_statement_two_lines : string :=
  two_blocks " First block. " LF
    (statement_first_line ++ LF ++ statement_second_line ++ LF) LF.

(** A four-digit year. *)
Definition is_year (y : string) : bool :=
  match y with
  | String a (String b (String c (String d EmptyString))) =>
      is_digit a && is_digit b && is_digit c && is_digit d
  | _ => false
  end.

(** [digits_then n s p]: [s] begins with [n] digits and [p] holds of what
    follows them. *)
Fixpoint digits_then (n : nat) (s : string) (p : string -> bool) : bool :=
  match n with
  | 0 => p s
  | S n' =>
      match s with
      | String a s' => is_digit a && digits_then n' s' p
      | EmptyString => false
      end
  end.

(** [s] begins with a year range, [YYYY-YYYY]. *)
Definition range_at (s : string) : bool :=
  digits_then 4 s (fun s1 =>
    match drop_prefix "-" s1 with
    | Some s2 => digits_then 4 s2 (fun _ => true)
    | None => false
    end).

(** In [mid ++ rest] no year range starts inside [mid]. *)
Fixpoint no_range_in (mid rest : string) : bool :=
  match mid with
  | EmptyString => true
  | String a mid' => negb (range_at (mid ++ rest)) && no_range_in mid' rest
  end.

(** A double header whose first block has a year range and no [(C)]. *)
Definition file_range_without_C : string :=
  two_blocks " Written 2003-2008 by somebody. " LF " Second block. " LF.

(** A double header whose first block has a [(C)] and then a year range. *)
Definition file_range_after_C : string :=
  two_blocks " (C) Copyright 2003-2008, by somebody. " LF " Second block. " LF.




(** ** Vocabulary of the further properties *)

(** [grp_in r n body]: the pattern [r] has a group numbered [n] whose
    content is [body]. *)
Fixpoint grp_in (r : regex) (n : nat) (body : regex) : Prop :=
  match r with
  | Cat r1 r2 => grp_in r1 n body \/ grp_in r2 n body
  | Grp i r1 => (i = n /\ body = r1) \/ grp_in r1 n body
  | Opt r1 => grp_in r1 n body
  | _ => False
  end.

(** A non-empty run of digits. *)
Definition is_number (y : string) : Prop :=
  y <> "" /\ all_chars is_digit y = true.

Definition not_period (a : ascii) : bool := negb (Ascii.eqb a ".").

(** The warnings that announce a default author, and a default year. *)
Definition author_warning (filename s : string) : Prop :=
  s = msg_no_author_2nd filename \/ s = msg_no_author filename
  \/ s = msg_no_headers filename.
Definition year_warning (filename s : string) : Prop :=
  s = msg_no_year_2nd filename \/ s = msg_no_year filename
  \/ s = msg_no_headers filename.

(** What every pair of authors and year that the cascade returns
    satisfies, with the warnings [ws] printed on the way. *)
Definition extracted_ok (filename : string) (ws : list string)
    (a y : string) : Prop :=
  length ws <= 2 /\
  Forall (is_warning filename) ws /\
  (forall s, In s ws -> author_warning filename s -> a = default_authors) /\
  (forall s, In s ws -> year_warning filename s -> y = default_year) /\
  is_number y /\ all_chars not_lf a = true.

(** In [mid ++ rest] no four digits start inside [mid]. *)
Fixpoint no_year_in (mid rest : string) : bool :=
  match mid with
  | EmptyString => true
  | String a mid' =>
      negb (digits_then 4 (mid ++ rest) (fun _ => true))
      && no_year_in mid' rest
  end.

(** The end of a white-space run: the text that follows is empty or
    starts with a character that is not white space. *)
Definition starts_word (s : string) : bool :=
  match s with
  | EmptyString => true
  | String a _ => negb (is_space a)
  end.

(** The end of a line: the text that follows is empty or starts with a
    line feed. *)
Definition at_line_end (s : string) : bool :=
  match s with
  | EmptyString => true
  | String a _ => Ascii.eqb a "010"
  end.

(** The end of a number: the text that follows is empty or starts with a
    character that is not a digit. *)
Definition ends_number (s : string) : bool :=
  match s with
  | EmptyString => true
  | String a _ => negb (is_digit a)
  end.

(** A double header after a package line, and a file with an [@author]
    tag and no [Original Author:] line. *)
Definition file_header_after_text : string :=
  "package x;" ++ LF
  ++ two_blocks " First block. " (CR ++ LF) " Second block. " LF.

Definition file_author_tag : string :=
  two_blocks " First block. " LF (LF ++ " * 2004 : Initial version" ++ LF ++ " ")
    (LF ++ "/**" ++ LF ++ " * @author  John Smith" ++ LF ++ " */" ++ LF).

(** ** First matches *)

(** [no_match_in p pre rest]: in [pre ++ rest] the pattern [p] matches at
    no position inside [pre]; a search in [pre ++ rest] then finds what a
    search in [rest] finds. *)
Fixpoint no_match_in (p : pattern) (pre rest : string) : bool :=
  match pre with
  | EmptyString => true
  | String a pre' =>
      match match_here (pat_dotall p) (pat_re p) (pre ++ rest) with
      | Some _ => false
      | None => no_match_in p pre' rest
      end
  end.

(** A second block with two copyright statements, the sample one last. *)
Definition file_two_statements : string :=
  two_blocks " First block. " LF
    (LF ++ " * (C) Copyright 2005-2008, by John Sichi and Contributors."
     ++ LF ++ " * " ++ stmt_2003 ++ LF ++ " ") LF.

(** A first block whose first [(C)] has no year range on its line. *)
Definition file_second_C_range : string :=
  two_blocks (" (C) foo" ++ LF ++ " (C) 2003-2008 ") LF " Second block. " LF.



(** [y] is the second year of the first year range of [h1] that the
    range pattern finds: no match of the pattern begins before the [(C)],
    the range is on the line of the [(C)], and no range begins between the
    two. *)
Definition first_range (h1 y : string) : Prop :=
  exists pre mid y1 post,
    h1 = pre ++ "(C)" ++ mid ++ y1 ++ "-" ++ y ++ post /\
    no_match_in p_range pre ("(C)" ++ mid ++ y1 ++ "-" ++ y ++ post) = true /\
    all_chars not_lf mid = true /\
    no_range_in mid (y1 ++ "-" ++ y ++ post) = true /\
    is_year y1 = true /\ is_year y = true.

(** ** Facts about byte strings *)

Section Strings.

Lemma append_nil_r (s : string) : s ++ "" = s.
Proof. induction s as [|a s IH]; simpl; [reflexivity | now rewrite IH]. Qed.

Lemma append_assoc (a b c : string) : (a ++ b) ++ c = a ++ b ++ c.
Proof. induction a as [|x a IH]; simpl; [reflexivity | now rewrite IH]. Qed.

Lemma drop_prefix_sound (l s s' : string) :
  drop_prefix l s = Some s' -> s = l ++ s'.
Proof.
  revert s; induction l as [|a l IH]; intros s H; simpl in *.
  - now inversion H.
  - destruct s as [|b s]; [discriminate|].
    destruct (Ascii.eqb_spec a b) as [->|]; [|discriminate].
    now rewrite (IH _ H).
Qed.

Lemma drop_prefix_app (l s : string) : drop_prefix l (l ++ s) = Some s.
Proof.
  induction l as [|a l IH]; simpl; [reflexivity|].
  now rewrite Ascii.eqb_refl.
Qed.

Lemma all_chars_app (f : ascii -> bool) (a b : string) :
  all_chars f (a ++ b) = all_chars f a && all_chars f b.
Proof.
  induction a as [|x a IH]; simpl; [reflexivity|].
  now rewrite IH, andb_assoc.
Qed.

(** Every way of cutting [pre] in two leaves [lit] absent at the cut. *)
Lemma absent_cut (lit pre rest x y : string) :
  absent lit pre rest = true -> pre = x ++ y -> y <> "" ->
  drop_prefix lit (y ++ rest) = None.
Proof.
  revert pre; induction x as [|a x IH]; intros pre Habs -> Hy; simpl in *.
  - destruct y as [|b y]; [congruence|]. simpl in Habs.
    simpl. destruct (drop_prefix lit (String b (y ++ rest))); [discriminate|reflexivity].
  - destruct (drop_prefix lit (String a ((x ++ y) ++ rest))); [discriminate|].
    now apply (IH (x ++ y)).
Qed.

Lemma occurs_app_r (lit pre rest : string) :
  occurs lit rest = true -> occurs lit (pre ++ rest) = true.
Proof.
  intros H; induction pre as [|a pre IH]; simpl; [exact H|].
  rewrite IH.
  now destruct (drop_prefix lit (String a (pre ++ rest))).
Qed.

End Strings.

(** ** Facts about the engine *)

Section Engine.

Variable dotall : bool.

Lemma star_max_inv cl s k res :
  star_max dotall cl s k = Some res ->
  exists w s', s = w ++ s' /\ all_chars (cmatch dotall cl) w = true
               /\ k w s' = Some res.
Proof.
  revert k; induction s as [|a s IH]; intros k H; simpl in H.
  - now exists "", "".
  - destruct (cmatch dotall cl a) eqn:Ha.
    + destruct (star_max dotall cl s (fun w r => k (String a w) r)) eqn:E.
      * inversion H; subst.
        apply IH in E. destruct E as (w & s' & -> & Hw & Hk).
        exists (String a w), s'. simpl. rewrite Ha, Hw. auto.
      * now exists "", (String a s).
    + now exists "", (String a s).
Qed.

Lemma star_min_inv cl s k res :
  star_min dotall cl s k = Some res ->
  exists w s', s = w ++ s' /\ all_chars (cmatch dotall cl) w = true
               /\ k w s' = Some res.
Proof.
  revert k; induction s as [|a s IH]; intros k H; simpl in H.
  - destruct (k "" "") eqn:E; [|discriminate].
    exists "", "". now inversion H; subst.
  - destruct (k "" (String a s)) eqn:E.
    + exists "", (String a s). now inversion H; subst.
    + destruct (cmatch dotall cl a) eqn:Ha; [|discriminate].
      apply IH in H. destruct H as (w & s' & -> & Hw & Hk).
      exists (String a w), s'. simpl. now rewrite Ha, Hw.
Qed.

(** A successful match is a successful run of the continuation after a
    text of the pattern's language; groups bound before stay bound and the
    groups the pattern binds are bound. *)
Lemma mre_inv r : forall s m k res,
  mre dotall r s m k = Some res ->
  exists w s' m',
    s = w ++ s' /\ lang dotall r w /\ k w s' m' = Some res /\
    (forall n, binds r n = true \/ group m n <> None -> group m' n <> None).
Proof.
  induction r as [|l|cl|r1 IH1 r2 IH2|i r1 IH1|r1 IH1|cl|cl];
    intros s m k res H; simpl in H.
  - exists "", s, m. repeat split; auto. intros n [Hn|Hn]; [discriminate|auto].
  - destruct (drop_prefix l s) as [s'|] eqn:E; [|discriminate].
    exists l, s', m. repeat split; auto using drop_prefix_sound.
    intros n [Hn|Hn]; [discriminate|auto].
  - destruct s as [|a s]; [discriminate|].
    destruct (cmatch dotall cl a) eqn:Ha; [|discriminate].
    exists (String a ""), s, m. repeat split; auto.
    + now exists a.
    + intros n [Hn|Hn]; [discriminate|auto].
  - apply IH1 in H. destruct H as (w1 & s1 & m1 & -> & L1 & H & B1).
    apply IH2 in H. destruct H as (w2 & s2 & m2 & -> & L2 & H & B2).
    exists (w1 ++ w2), s2, m2. split; [now rewrite append_assoc|].
    split; [now exists w1, w2|]. split; [exact H|].
    intros n [Hn|Hn].
    + simpl in Hn. apply orb_true_iff in Hn. destruct Hn as [Hn|Hn].
      * apply B2. right. apply B1. now left.
      * apply B2. now left.
    + apply B2. right. apply B1. now right.
  - apply IH1 in H. destruct H as (w & s' & m' & -> & L & H & B).
    exists w, s', ((i, w) :: m'). split; [reflexivity|].
    split; [exact L|]. split; [exact H|].
    intros n Hn. simpl. destruct (Nat.eqb i n) eqn:E; [discriminate|].
    apply B. destruct Hn as [Hn|Hn]; [left|now right].
    simpl in Hn. now rewrite E in Hn.
  - destruct (mre dotall r1 s m k) eqn:E.
    + inversion H; subst. apply IH1 in E.
      destruct E as (w & s' & m' & -> & L & E & B).
      exists w, s', m'. repeat split; auto.
      * now right.
      * intros n [Hn|Hn]; [discriminate|]. apply B. now right.
    + exists "", s, m. repeat split; auto.
      * now left.
      * intros n [Hn|Hn]; [discriminate|auto].
  - apply star_max_inv in H. destruct H as (w & s' & -> & Hw & H).
    exists w, s', m. repeat split; auto.
    intros n [Hn|Hn]; [discriminate|auto].
  - apply star_min_inv in H. destruct H as (w & s' & -> & Hw & H).
    exists w, s', m. repeat split; auto.
    intros n [Hn|Hn]; [discriminate|auto].
Qed.

Lemma search_from_inv r s m :
  search_from dotall r s = Some m ->
  exists pre s', s = pre ++ s' /\ match_here dotall r s' = Some m.
Proof.
  induction s as [|a s IH]; simpl; intros H.
  - destruct (match_here dotall r "") eqn:E; [|discriminate].
    inversion H; subst. now exists "", "".
  - destruct (match_here dotall r (String a s)) eqn:E.
    + inversion H; subst. now exists "", (String a s).
    + apply IH in H. destruct H as (pre & s' & -> & H).
      now exists (String a pre), s'.
Qed.

Lemma match_here_binds r s m n :
  match_here dotall r s = Some m -> binds r n = true ->
  exists w, group m n = Some w.
Proof.
  unfold match_here. intros H B. apply mre_inv in H.
  destruct H as (w & s' & m' & _ & _ & H & Hb).
  unfold accept in H. inversion H; subst.
  specialize (Hb n (or_introl B)).
  simpl. destruct n; [eexists; reflexivity|].
  destruct (group m' (S n)) as [x|]; [now exists x | congruence].
Qed.

Lemma search_from_binds r s m n :
  search_from dotall r s = Some m -> binds r n = true ->
  exists w, group m n = Some w.
Proof.
  intros H B. apply search_from_inv in H.
  destruct H as (pre & s' & _ & H). eauto using match_here_binds.
Qed.

(** A match somewhere in the text makes the search succeed. *)
Lemma search_from_app_some r pre rest :
  match_here dotall r rest <> None ->
  search_from dotall r (pre ++ rest) <> None.
Proof.
  intros H. induction pre as [|a pre IH]; simpl.
  - destruct rest; simpl; destruct (match_here dotall r _); congruence.
  - destruct (match_here dotall r (String a (pre ++ rest))); congruence.
Qed.

(** Positions where no match starts are passed over. *)
Lemma search_from_skip r pre rest :
  (forall x y, pre = x ++ y -> y <> "" ->
               match_here dotall r (y ++ rest) = None) ->
  search_from dotall r (pre ++ rest) = search_from dotall r rest.
Proof.
  induction pre as [|a pre IH]; intros H; [reflexivity|].
  assert (E : match_here dotall r (String a (pre ++ rest)) = None)
    by (apply (H "" (String a pre)); [reflexivity|discriminate]).
  simpl. rewrite E.
  apply IH. intros x y -> Hy. now apply (H (String a x) y).
Qed.

(** A pattern that begins with literal text matches only where the text
    is. *)
Lemma mre_Str_fail l r s m k :
  drop_prefix l s = None -> mre dotall (Str l +++ r) s m k = None.
Proof. intros H. simpl. now rewrite H. Qed.

Lemma search_from_absent l r pre rest :
  absent l pre rest = true ->
  search_from dotall (Str l +++ r) (pre ++ rest)
  = search_from dotall (Str l +++ r) rest.
Proof.
  intros H. apply search_from_skip. intros x y Hxy Hy.
  apply mre_Str_fail. eauto using absent_cut.
Qed.

(** The lazy star passes over the characters at which the continuation
    fails. *)
Lemma star_min_skip cl mid : forall rest k,
  all_chars (cmatch dotall cl) mid = true ->
  (forall x y, mid = x ++ y -> y <> "" -> k x (y ++ rest) = None) ->
  star_min dotall cl (mid ++ rest) k
  = star_min dotall cl rest (fun w r => k (mid ++ w) r).
Proof.
  induction mid as [|a mid IH]; intros rest k Hall Hk; [reflexivity|].
  simpl in Hall. apply andb_true_iff in Hall. destruct Hall as [Ha Hall].
  assert (E : k "" (String a (mid ++ rest)) = None)
    by (apply (Hk "" (String a mid)); [reflexivity|discriminate]).
  simpl. rewrite E, Ha. apply IH; [exact Hall|].
  intros x y -> Hy. now apply (Hk (String a x) y).
Qed.

(** The lazy star succeeds as soon as the continuation does somewhere. *)
Lemma star_min_some cl mid : forall rest k,
  all_chars (cmatch dotall cl) mid = true ->
  k mid rest <> None ->
  star_min dotall cl (mid ++ rest) k <> None.
Proof.
  induction mid as [|a mid IH]; intros rest k Hall Hk.
  - simpl. destruct rest; simpl; destruct (k "" _); congruence.
  - simpl in Hall. apply andb_true_iff in Hall. destruct Hall as [Ha Hall].
    simpl. destruct (k "" (String a (mid ++ rest))); [congruence|].
    rewrite Ha. now apply IH.
Qed.

(** The greedy star gives back characters down to the longest prefix
    after which the continuation succeeds. *)
Lemma star_max_longest cl b : forall k,
  (forall x y, b = x ++ y -> x <> "" -> k x y = None) ->
  star_max dotall cl b k = k "" b.
Proof.
  induction b as [|c b IH]; intros k Hk; [reflexivity|].
  simpl. destruct (cmatch dotall cl c); [|reflexivity].
  rewrite IH.
  - now rewrite (Hk (String c "") b).
  - intros x y -> Hx. now apply (Hk (String c x) y).
Qed.

Lemma star_max_last cl a : forall b k res,
  all_chars (cmatch dotall cl) a = true ->
  k a b = Some res ->
  (forall x y, b = x ++ y -> x <> "" -> k (a ++ x) y = None) ->
  star_max dotall cl (a ++ b) k = Some res.
Proof.
  induction a as [|c a IH]; intros b k res Hall Hk Hlater.
  - simpl. rewrite star_max_longest; [exact Hk|]. exact Hlater.
  - simpl in Hall. apply andb_true_iff in Hall. destruct Hall as [Hc Hall].
    simpl. rewrite Hc.
    rewrite (IH b (fun w r => k (String c w) r) res); auto.
Qed.

(** The same, when the star is stopped by the end of the text or by a
    character outside its class. *)
Lemma star_max_stop cl b1 : forall b2 k,
  (b2 = "" \/ exists c r, b2 = String c r /\ cmatch dotall cl c = false) ->
  (forall x y, b1 = x ++ y -> x <> "" -> k x (y ++ b2) = None) ->
  star_max dotall cl (b1 ++ b2) k = k "" (b1 ++ b2).
Proof.
  induction b1 as [|c b1 IH]; intros b2 k Hstop Hk.
  - destruct Hstop as [->|(c & r & -> & Hc)]; [reflexivity|].
    simpl. now rewrite Hc.
  - simpl. destruct (cmatch dotall cl c); [|reflexivity].
    rewrite IH; [|exact Hstop|].
    + now rewrite (Hk (String c "") b1).
    + intros x y -> Hx. now apply (Hk (String c x) y).
Qed.

Lemma star_max_last_line cl a : forall b1 b2 k res,
  all_chars (cmatch dotall cl) a = true ->
  (b2 = "" \/ exists c r, b2 = String c r /\ cmatch dotall cl c = false) ->
  k a (b1 ++ b2) = Some res ->
  (forall x y, b1 = x ++ y -> x <> "" -> k (a ++ x) (y ++ b2) = None) ->
  star_max dotall cl (a ++ b1 ++ b2) k = Some res.
Proof.
  induction a as [|c a IH]; intros b1 b2 k res Hall Hstop Hk Hlater.
  - simpl. rewrite star_max_stop; auto.
  - simpl in Hall. apply andb_true_iff in Hall. destruct Hall as [Hc Hall].
    simpl. rewrite Hc.
    rewrite (IH b1 b2 (fun w r => k (String c w) r) res); auto.
Qed.

(** With a continuation that cannot fail the greedy star takes the longest
    run of characters of its class. *)
Lemma star_max_run cl s : forall k,
  (forall w r, k w r <> None) ->
  exists w r,
    s = w ++ r /\ all_chars (cmatch dotall cl) w = true /\
    (r = "" \/ exists a r', r = String a r' /\ cmatch dotall cl a = false) /\
    star_max dotall cl s k = k w r.
Proof.
  induction s as [|a s IH]; intros k Hk.
  - exists "", "". auto.
  - simpl. destruct (cmatch dotall cl a) eqn:Ha.
    + destruct (IH (fun w r => k (String a w) r)) as (w & r & -> & Hw & Hr & E).
      { intros w r. apply Hk. }
      exists (String a w), r. simpl. rewrite Ha, Hw, E.
      repeat split; auto.
      destruct (k (String a w) r) eqn:E'; [reflexivity|].
      now apply Hk in E'.
    + exists "", (String a s). repeat split; auto. right. eauto.
Qed.

(** With a continuation that cannot fail the greedy star cannot fail. *)
Lemma star_max_total cl s k :
  (forall w r, k w r <> None) -> star_max dotall cl s k <> None.
Proof.
  revert k; induction s as [|a s IH]; intros k Hk; simpl; [apply Hk|].
  destruct (cmatch dotall cl a); [|apply Hk].
  destruct (star_max dotall cl s _); [congruence|apply Hk].
Qed.

End Engine.

Arguments search : simpl never.
Arguments search_from : simpl never.
Arguments match_here : simpl never.

(** ** Running the matcher by rewriting *)

Section Steps.

Variable dotall : bool.
Variables (s : string) (m : groups).
Variable k : string -> string -> groups -> option groups.

Lemma mre_Eps_eq : mre dotall Eps s m k = k "" s m.
Proof. reflexivity. Qed.

Lemma mre_Cat_eq r1 r2 :
  mre dotall (r1 +++ r2) s m k
  = mre dotall r1 s m (fun w1 s1 m1 =>
    mre dotall r2 s1 m1 (fun w2 s2 m2 => k (w1 ++ w2) s2 m2)).
Proof. reflexivity. Qed.

Lemma mre_Grp_eq n r :
  mre dotall (Grp n r) s m k
  = mre dotall r s m (fun w s1 m1 => k w s1 ((n, w) :: m1)).
Proof. reflexivity. Qed.

Lemma mre_Opt_eq r :
  mre dotall (Opt r) s m k
  = match mre dotall r s m k with
    | Some m' => Some m'
    | None => k "" s m
    end.
Proof. reflexivity. Qed.

Lemma mre_Opt_take r x :
  mre dotall r s m k = Some x -> mre dotall (Opt r) s m k = Some x.
Proof. intros H. now rewrite mre_Opt_eq, H. Qed.

Lemma mre_Opt_skip r :
  mre dotall r s m k = None -> mre dotall (Opt r) s m k = k "" s m.
Proof. intros H. now rewrite mre_Opt_eq, H. Qed.

Lemma mre_Opt_some r :
  mre dotall r s m k <> None -> mre dotall (Opt r) s m k <> None.
Proof. intros H. rewrite mre_Opt_eq. now destruct (mre dotall r s m k). Qed.

Lemma mre_Star_eq cl :
  mre dotall (Star cl) s m k = star_max dotall cl s (fun w s1 => k w s1 m).
Proof. reflexivity. Qed.

Lemma mre_StarLazy_eq cl :
  mre dotall (StarLazy cl) s m k
  = star_min dotall cl s (fun w s1 => k w s1 m).
Proof. reflexivity. Qed.

Lemma mre_Str_eq l : mre dotall (Str l) (l ++ s) m k = k l s m.
Proof. simpl. now rewrite drop_prefix_app. Qed.

Lemma mre_Str_neq l : drop_prefix l s = None -> mre dotall (Str l) s m k = None.
Proof. intros H. simpl. now rewrite H. Qed.

Lemma mre_Chr_eq cl a :
  mre dotall (Chr cl) (String a s) m k
  = if cmatch dotall cl a then k (String a "") s m else None.
Proof. reflexivity. Qed.

End Steps.

Arguments mre : simpl never.

(** One step of the matcher on a pattern whose head is known; an optional
    item that cannot match is skipped. *)
Ltac re_step :=
  first [ rewrite mre_Cat_eq | rewrite mre_Grp_eq
        | rewrite mre_StarLazy_eq | rewrite mre_Star_eq | rewrite mre_Eps_eq
        | rewrite mre_Str_eq
        | rewrite mre_Opt_skip by (apply mre_Str_neq; reflexivity) ];
  cbv beta.

(** ** The file store is only read *)

Section Frame.

Lemma reads_only_ret {A} (a : A) : reads_only (ret a).
Proof. now intros w. Qed.

Lemma reads_only_raise {A} (e : exn) : reads_only (@raise A e).
Proof. now intros w. Qed.

Lemma reads_only_bind {A B} (c : M A) (f : A -> M B) :
  reads_only c -> (forall a, reads_only (f a)) -> reads_only (bind c f).
Proof.
  intros Hc Hf w. unfold bind. specialize (Hc w).
  destruct (c w) as [w' [a|e]]; simpl in *; [|exact Hc].
  now rewrite Hf.
Qed.

Lemma reads_only_print v : reads_only (print v).
Proof. now intros w. Qed.

Lemma reads_only_warn s : reads_only (warn s).
Proof. now intros w. Qed.

Lemma reads_only_open f : reads_only (open_rplus f).
Proof. intros w. unfold open_rplus. now destruct (files w f). Qed.

Lemma reads_only_mmap f : reads_only (mmap f).
Proof. intros w. unfold mmap. now destruct (files w f) as [[|a s]|]. Qed.

Lemma reads_only_add a b : reads_only (add a b).
Proof. intros w. now destruct a, b. Qed.

Lemma reads_only_re_search p v : reads_only (re_search p v).
Proof. intros w. now destruct v. Qed.

Lemma reads_only_re_sub cl repl v : reads_only (re_sub cl repl v).
Proof. intros w. now destruct v. Qed.

Ltac frame :=
  repeat first
    [ apply reads_only_ret | apply reads_only_raise | apply reads_only_print
    | apply reads_only_warn | apply reads_only_open | apply reads_only_mmap
    | apply reads_only_add | apply reads_only_re_search
    | apply reads_only_re_sub
    | apply reads_only_bind; [|intros ?]
    | match goal with
      | |- reads_only (match ?x with _ => _ end) => destruct x
      | |- reads_only (let '(_, _) := ?x in _) => destruct x
      end ].

Lemma reads_only_copyright_branch filename sh :
  reads_only (copyright_branch filename sh).
Proof. unfold copyright_branch. frame. Qed.

Lemma reads_only_original_branch filename data a y h1 h2 :
  reads_only (original_branch filename data a y h1 h2).
Proof. unfold original_branch. frame. Qed.

Lemma reads_only_single_branch filename data a y :
  reads_only (single_branch filename data a y).
Proof. unfold single_branch. frame. Qed.

Lemma reads_only_extract filename data a y :
  reads_only (extract filename data a y).
Proof.
  unfold extract.
  apply reads_only_bind; [apply reads_only_re_search | intros [p|]].
  - apply reads_only_bind; [apply reads_only_re_search | intros [q|]].
    + apply reads_only_copyright_branch.
    + apply reads_only_original_branch.
  - apply reads_only_bind; [apply reads_only_re_search | intros [q|]].
    + apply reads_only_single_branch.
    + frame.
Qed.

Lemma reads_only_HeaderReformat filename : reads_only (HeaderReformat filename).
Proof.
  unfold HeaderReformat, copyright_line.
  apply reads_only_bind; [apply reads_only_open | intros f].
  apply reads_only_bind; [apply reads_only_mmap | intros data].
  apply reads_only_bind; [apply reads_only_extract | intros [a y]].
  frame.
Qed.

End Frame.

(** ** The groups the script reads are bound *)

Section Groups.

Lemma mre_Cat_inv dotall r1 r2 s m k res :
  mre dotall (r1 +++ r2) s m k = Some res ->
  exists w1 s1 m1,
    s = w1 ++ s1 /\
    mre dotall r2 s1 m1 (fun w2 s2 m2 => k (w1 ++ w2) s2 m2) = Some res.
Proof.
  rewrite mre_Cat_eq. intros H. apply mre_inv in H.
  destruct H as (w1 & s1 & m1 & Hs & _ & H & _). eauto.
Qed.

Lemma search_binds p s m n :
  search p s = Some m -> binds (pat_re p) n = true ->
  exists w, group m n = Some w.
Proof. unfold search. apply search_from_binds. Qed.

Lemma double_groups data m :
  search p_double data = Some m ->
  exists h1 h2, group m 1 = Some h1 /\ group m 2 = Some h2.
Proof.
  intros H.
  destruct (search_binds _ _ _ 1 H eq_refl) as [h1 H1].
  destruct (search_binds _ _ _ 2 H eq_refl) as [h2 H2].
  eauto.
Qed.

(** Group 4 of the copyright pattern is optional in the pattern, but it
    ends the pattern and its body can match the empty text, so it takes
    part in every match.  Its text is a piece of the searched text that
    has no line feed and runs to the end of its line. *)
Lemma copyright_groups sh m :
  search p_copyright sh = Some m ->
  exists y raw before after,
    group m 1 = Some y /\ group m 4 = Some raw /\
    all_chars not_lf raw = true /\
    sh = before ++ raw ++ after /\
    (after = "" \/ exists t, after = LF ++ t).
Proof.
  intros H.
  destruct (search_binds _ _ _ 1 H eq_refl) as [y Hy].
  exists y. unfold search in H. apply search_from_inv in H.
  destruct H as (pre & s' & Hsh & H). unfold match_here, p_copyright in H.
  cbn [pat_re pat_dotall] in H.
  repeat (apply mre_Cat_inv in H; destruct H as (? & ? & ? & Hs & H);
          rewrite Hs, <- append_assoc in Hsh; clear Hs).
  rewrite mre_Opt_eq, mre_Grp_eq, mre_Star_eq in H.
  match type of H with
  | match star_max _ _ ?s ?k with _ => _ end = _ =>
      destruct (star_max_run false Dot s k) as (w & r & Hs & Hw & Hr & E)
  end.
  { intros w r. discriminate. }
  rewrite E in H. unfold accept in H. inversion H; subst m.
  exists w. eexists. exists r. repeat split.
  - exact Hy.
  - exact Hw.
  - rewrite Hsh, Hs. reflexivity.
  - destruct Hr as [->|(a & r' & -> & Ha)]; [now left|right].
    exists r'. cbn in Ha. unfold not_lf in Ha.
    apply negb_false_iff in Ha. apply Ascii.eqb_eq in Ha. now subst a.
Qed.

End Groups.

(** ** What each branch of the cascade does *)

Section Branches.

Variable filename : string.

(** A warning is not a copyright line. *)
Lemma warning_not_line s y a : is_warning filename s -> s <> line_of y a filename.
Proof.
  unfold is_warning. simpl.
  intros [<-|[<-|[<-|[<-|[<-|[]]]]]]; discriminate.
Qed.

Ltac run_monad :=
  cbv [bind ret raise re_search re_sub add warn _warning print py_str
       files stdout].

Lemma copyright_branch_fatal sh w :
  search p_copyright sh = None ->
  copyright_branch filename (Some sh) w
  = (w, Raise (Exception (msg_cannot_parse filename ++ sh))).
Proof. intros H. unfold copyright_branch. run_monad. now rewrite H. Qed.

Lemma copyright_branch_ok sh w m :
  search p_copyright sh = Some m ->
  exists a y, copyright_branch filename (Some sh) w = (w, Ret (Some a, Some y)).
Proof.
  intros H.
  destruct (copyright_groups _ _ H) as (y & raw & ? & ? & Hy & Hraw & _).
  unfold copyright_branch. run_monad. rewrite H, Hy, Hraw.
  destruct (search p_and raw) as [p|] eqn:E.
  - destruct (search_binds _ _ _ 1 E eq_refl) as [a Ha]. rewrite Ha. eauto.
  - eauto.
Qed.

Lemma original_branch_ok data a0 y0 h1 h2 fs out :
  exists ws a y,
    original_branch filename data (Some a0) (Some y0) (Some h1) (Some h2)
      (mkWorld fs out)
    = (mkWorld fs (out ++ ws), Ret (Some a, Some y))
    /\ Forall (is_warning filename) ws.
Proof.
  assert (W1 : is_warning filename (msg_no_author_2nd filename)) by (red; simpl; auto).
  assert (W2 : is_warning filename (msg_no_year_2nd filename)) by (red; simpl; auto).
  unfold original_branch. run_monad.
  destruct (search p_original h2) as [p|] eqn:E1;
    [destruct (search_binds _ _ _ 1 E1 eq_refl) as [a Ha]; rewrite Ha|
     destruct (search p_author data) as [p2|] eqn:E2;
     [destruct (search_binds _ _ _ 3 E2 eq_refl) as [a Ha]; rewrite Ha|]];
  (destruct (search p_initial h2) as [q|] eqn:E3;
    [destruct (search_binds _ _ _ 2 E3 eq_refl) as [y Hy]; rewrite Hy|
     destruct (search p_range h1) as [q|] eqn:E4;
     [destruct (search_binds _ _ _ 1 E4 eq_refl) as [y Hy]; rewrite Hy|]]).
  all: try (exists [], a, y; rewrite app_nil_r; split; [reflexivity|constructor]).
  all: try (exists [msg_no_year_2nd filename], a, y0; split;
            [reflexivity|repeat constructor; assumption]).
  all: try (exists [msg_no_author_2nd filename], a0, y; split;
            [reflexivity|repeat constructor; assumption]).
  exists [msg_no_author_2nd filename; msg_no_year_2nd filename], a0, y0.
  rewrite <- app_assoc. split; [reflexivity|repeat constructor; assumption].
Qed.

(** In the single-header branch [authors] keeps the value it came with. *)
Lemma single_branch_ok data a0 y0 fs out :
  exists ws y,
    single_branch filename data (Some a0) (Some y0) (mkWorld fs out)
    = (mkWorld fs (out ++ ws), Ret (Some a0, Some y))
    /\ Forall (is_warning filename) ws.
Proof.
  assert (W1 : is_warning filename (msg_no_author filename)) by (red; simpl; auto).
  assert (W2 : is_warning filename (msg_no_year filename)) by (red; simpl; auto 6).
  unfold single_branch. run_monad.
  destruct (search p_author_lazy data) as [p|] eqn:E1;
  (destruct (search p_since data) as [q|] eqn:E2;
    [destruct (search_binds _ _ _ 2 E2 eq_refl) as [y Hy]; rewrite Hy|]).
  - exists [], y. rewrite app_nil_r. split; [reflexivity|constructor].
  - exists [msg_no_year filename], y0. split; [reflexivity|auto].
  - exists [msg_no_author filename], y. split; [reflexivity|auto].
  - exists [msg_no_author filename; msg_no_year filename], y0.
    rewrite <- app_assoc. split; [reflexivity|auto].
Qed.

End Branches.

(** ** From the cascade to a run *)

Section Runs.

Variable filename : string.
Variable fs : string -> option string.

Lemma copyright_line_ok y a w :
  copyright_line (Some y) (Some a) (Some filename) w
  = (w, Ret (Some (line_of y a filename))).
Proof.
  unfold copyright_line, line_of. cbv [bind ret add].
  now rewrite !append_assoc.
Qed.

Lemma run_of_extract data ws a y :
  fs filename = Some data -> data <> "" ->
  extract filename data (Some default_authors) (Some default_year)
    (mkWorld fs []) = (mkWorld fs ws, Ret (Some a, Some y)) ->
  run filename fs = (fs, (ws ++ [line_of y a filename])%list, Ret tt).
Proof.
  intros Hf Hd He. unfold run, HeaderReformat.
  unfold bind at 1. unfold open_rplus at 1. cbn [files]. rewrite Hf.
  unfold bind at 1. unfold mmap at 1. cbn [files]. rewrite Hf.
  destruct data as [|c data]; [congruence|].
  unfold bind at 1. rewrite He.
  unfold bind at 1. rewrite copyright_line_ok.
  reflexivity.
Qed.

Lemma run_of_extract_raise data ws e :
  fs filename = Some data -> data <> "" ->
  extract filename data (Some default_authors) (Some default_year)
    (mkWorld fs []) = (mkWorld fs ws, Raise e) ->
  run filename fs = (fs, ws, Raise e).
Proof.
  intros Hf Hd He. unfold run, HeaderReformat.
  unfold bind at 1. unfold open_rplus at 1. cbn [files]. rewrite Hf.
  unfold bind at 1. unfold mmap at 1. cbn [files]. rewrite Hf.
  destruct data as [|c data]; [congruence|].
  unfold bind at 1. rewrite He. reflexivity.
Qed.

Lemma run_empty :
  fs filename = Some "" ->
  run filename fs = (fs, [], Raise (ValueError "cannot mmap an empty file")).
Proof.
  intros Hf. unfold run, HeaderReformat.
  unfold bind at 1. unfold open_rplus at 1. cbn [files]. rewrite Hf.
  unfold bind at 1. unfold mmap at 1. cbn [files]. rewrite Hf.
  reflexivity.
Qed.

End Runs.

(** [(C)] is found by the search exactly when it occurs. *)
Lemma search_Str_occurs dotall l s :
  search_from dotall (Str l) s <> None <-> occurs l s = true.
Proof.
  induction s as [|a s IH].
  - unfold search_from, match_here. cbv [mre]. cbn [occurs].
    destruct (drop_prefix l ""); simpl; split; congruence.
  - change (search_from dotall (Str l) (String a s))
      with (match match_here dotall (Str l) (String a s) with
            | Some m => Some m
            | None => search_from dotall (Str l) s
            end).
    unfold match_here. cbv [mre]. cbn [occurs].
    destruct (drop_prefix l (String a s)); simpl.
    + split; congruence.
    + exact IH.
Qed.

Lemma search_C_occurs s : search p_C s <> None <-> occurs "(C)" s = true.
Proof. apply search_Str_occurs. Qed.

Lemma extract_unfold filename data a0 y0 w :
  extract filename data a0 y0 w =
  match search p_double data with
  | Some p =>
      match group p 2 with
      | Some sh =>
          match search p_C sh with
          | Some _ => copyright_branch filename (Some sh) w
          | None => original_branch filename data a0 y0 (group p 1) (Some sh) w
          end
      | None => (w, Raise TypeError)
      end
  | None =>
      match search p_single data with
      | Some _ => single_branch filename data a0 y0 w
      | None => (mkWorld (files w) (stdout w ++ [msg_no_headers filename]),
                 Ret (a0, y0))
      end
  end.
Proof.
  unfold extract. cbv [bind re_search ret].
  destruct (search p_double data) as [p|].
  - destruct (group p 2) as [sh|]; [|reflexivity].
    now destruct (search p_C sh).
  - now destruct (search p_single data).
Qed.

Lemma extract_cases filename data fs out :
  (fatal_header data /\
   exists sh,
     extract filename data (Some default_authors) (Some default_year)
       (mkWorld fs out)
     = (mkWorld fs out, Raise (Exception (msg_cannot_parse filename ++ sh))))
  \/
  (~ fatal_header data /\
   exists ws a y,
     extract filename data (Some default_authors) (Some default_year)
       (mkWorld fs out) = (mkWorld fs (out ++ ws), Ret (Some a, Some y))
     /\ Forall (is_warning filename) ws).
Proof.
  rewrite extract_unfold.
  destruct (search p_double data) as [m|] eqn:E1.
  - destruct (double_groups _ _ E1) as (h1 & h2 & H1 & H2). rewrite H1, H2.
    destruct (search p_C h2) as [c|] eqn:E2.
    + assert (Hocc : occurs "(C)" h2 = true)
        by (apply search_C_occurs; congruence).
      destruct (search p_copyright h2) as [q|] eqn:E3.
      * right. split.
        -- intros (m' & sh & Hm & Hsh & _ & Hno). congruence.
        -- destruct (copyright_branch_ok filename h2 (mkWorld fs out) q E3)
             as (a & y & Hb).
           exists [], a, y. rewrite app_nil_r. split; [exact Hb|constructor].
      * left. split.
        -- exists m, h2. auto.
        -- exists h2. now apply copyright_branch_fatal.
    + right. split.
      * intros (m' & sh & Hm & Hsh & Hocc & _).
        assert (sh = h2) by congruence. subst sh.
        apply search_C_occurs in Hocc. congruence.
      * apply original_branch_ok.
  - right. split.
    + intros (m' & sh & Hm & _). congruence.
    + destruct (search p_single data) as [p|] eqn:E2.
      * destruct (single_branch_ok filename data default_authors default_year
                    fs out) as (ws & y & Hb & Hw).
        exists ws, default_authors, y. split; [exact Hb|exact Hw].
      * exists [msg_no_headers filename], default_authors, default_year.
        split; [reflexivity|].
        constructor; [|constructor]. unfold is_warning. simpl. auto 6.
Qed.

(** ** Properties of a run *)

(** C8: the script never writes to the file store: after any invocation
    every file is what it was; so a second invocation on the same file
    prints what the first printed and ends as the first ended. *)
Theorem script_never_writes (filename : string) (fs : string -> option string) :
  files_after (run filename fs) = fs /\
  output (run filename (files_after (run filename fs)))
  = output (run filename fs) /\
  status (run filename (files_after (run filename fs)))
  = status (run filename fs).
Proof.
  assert (H : files_after (run filename fs) = fs).
  { unfold run, files_after.
    pose proof (reads_only_HeaderReformat filename (mkWorld fs [])) as R.
    destruct (HeaderReformat filename (mkWorld fs [])) as [w r].
    exact R. }
  rewrite H. auto.
Qed.

(** C9: on an empty file the run ends with the error of the memory-mapping
    call; nothing was printed, neither a warning nor a copyright line. *)
Theorem empty_file_fails_in_mmap (filename : string)
    (fs : string -> option string) :
  fs filename = Some "" ->
  run filename fs = (fs, [], Raise (ValueError "cannot mmap an empty file")).
Proof. apply run_empty. Qed.

Lemma empty_file_fails_in_mmap_witness :
  run "Empty.java" (one_file "Empty.java" "")
  = (one_file "Empty.java" "", [],
     Raise (ValueError "cannot mmap an empty file")).
Proof. apply empty_file_fails_in_mmap. reflexivity. Defined.

(** C1, at a file with a single header, [@author John Smith] and
    [@since 1999]: the year printed is 1999 but the author printed is the
    default one, not John Smith. *)
Theorem single_header_prints_default_author :
  search p_double file_single_header = None /\
  search p_single file_single_header <> None /\
  occurs "@author John Smith" file_single_header = true /\
  occurs "@since 1999" file_single_header = true /\
  output (run "Things.java" (one_file "Things.java" file_single_header))
  = ["(C) Copyright 1999-2016, by Barak Naveh, and Contributors. Things.java"] /\
  status (run "Things.java" (one_file "Things.java" file_single_header))
  = Ret tt.
Proof. vm_compute. repeat split; discriminate. Qed.

(** In the single-header branch the author printed is always the default
    one, whatever tags the file has. *)
Lemma single_header_keeps_default_authors filename fs data :
  fs filename = Some data -> data <> "" ->
  search p_double data = None -> search p_single data <> None ->
  exists ws y,
    run filename fs
    = (fs, (ws ++ [line_of y default_authors filename])%list, Ret tt)
    /\ Forall (is_warning filename) ws.
Proof.
  intros Hf Hd H2 H1.
  destruct (single_branch_ok filename data default_authors default_year fs [])
    as (ws & y & Hb & Hw).
  exists ws, y. split; [|exact Hw].
  apply (run_of_extract filename fs data); auto.
  rewrite extract_unfold, H2.
  destruct (search p_single data); [exact Hb|congruence].
Qed.

(** C6, amended: for every non-empty file in which neither the
    double-header nor the single-header pattern matches, the script prints
    the no-headers warning, once, and then the line of the default author
    and year. *)
Theorem no_header_prints_defaults (filename : string)
    (fs : string -> option string) (data : string) :
  fs filename = Some data -> data <> "" ->
  search p_double data = None -> search p_single data = None ->
  run filename fs
  = (fs,
     ["Did not find any headers: " ++ filename ++ LF;
      "(C) Copyright 2016-2016, by Barak Naveh, and Contributors. " ++ filename],
     Ret tt).
Proof.
  intros Hf Hd H2 H1.
  rewrite (run_of_extract filename fs data [msg_no_headers filename]
             default_authors default_year Hf Hd).
  - reflexivity.
  - now rewrite extract_unfold, H2, H1.
Qed.

Lemma no_header_prints_defaults_witness :
  run "A.java" (one_file "A.java" "class A {}")
  = (one_file "A.java" "class A {}",
     ["Did not find any headers: " ++ "A.java" ++ LF;
      "(C) Copyright 2016-2016, by Barak Naveh, and Contributors. " ++ "A.java"],
     Ret tt).
Proof.
  apply (no_header_prints_defaults "A.java" _ "class A {}");
    [reflexivity | discriminate | reflexivity | reflexivity].
Defined.

(** C6 as stated fails at the empty file: neither pattern matches in it,
    and the run prints nothing and ends with an error. *)
Lemma no_header_empty_file_counterexample :
  search p_double "" = None /\ search p_single "" = None /\
  output (run "Empty.java" (one_file "Empty.java" "")) = [] /\
  output (run "Empty.java" (one_file "Empty.java" ""))
  <> ["Did not find any headers: " ++ "Empty.java" ++ LF;
      "(C) Copyright 2016-2016, by Barak Naveh, and Contributors. "
      ++ "Empty.java"] /\
  status (run "Empty.java" (one_file "Empty.java" ""))
  = Raise (ValueError "cannot mmap an empty file").
Proof. vm_compute. repeat split; discriminate. Qed.

(** C2, amended: for every non-empty file, the run ends with an error
    exactly when the double-header pattern matches and the second block has
    a [(C)] that the copyright pattern does not parse; then nothing is
    printed and the error carries the file name and the second block.  In
    every other case the run prints warnings, if any, then one copyright
    line, and ends normally; no warning is a copyright line. *)
Theorem error_iff_unparsable_copyright (filename : string)
    (fs : string -> option string) (data : string) :
  fs filename = Some data -> data <> "" ->
  (fatal_header data <-> exists e, status (run filename fs) = Raise e) /\
  (fatal_header data ->
     output (run filename fs) = [] /\
     exists sh, status (run filename fs)
                = Raise (Exception (msg_cannot_parse filename ++ sh))) /\
  (~ fatal_header data ->
     exists ws y a,
       output (run filename fs) = (ws ++ [line_of y a filename])%list /\
       status (run filename fs) = Ret tt /\
       Forall (is_warning filename) ws /\
       forall s, In s ws -> forall y' a', s <> line_of y' a' filename).
Proof.
  intros Hf Hd.
  destruct (extract_cases filename data fs [])
    as [[Hfatal [sh He]] | [Hok (ws & a & y & He & Hw)]].
  - rewrite (run_of_extract_raise filename fs data _ _ Hf Hd He).
    unfold output, status; simpl. repeat split; eauto; tauto.
  - rewrite (run_of_extract filename fs data _ _ _ Hf Hd He).
    unfold output, status; simpl. repeat split.
    + tauto.
    + intros [e He']. discriminate.
    + tauto.
    + tauto.
    + intros _. exists ws, y, a. repeat split; auto.
      intros s Hs y' a'. apply warning_not_line.
      rewrite Forall_forall in Hw. auto.
Qed.

Lemma error_iff_unparsable_copyright_witness :
  let filename := "A.java" in
  let fs := one_file "A.java" file_unparsable_copyright in
  let data := file_unparsable_copyright in
  (fatal_header data <-> exists e, status (run filename fs) = Raise e) /\
  (fatal_header data ->
     output (run filename fs) = [] /\
     exists sh, status (run filename fs)
                = Raise (Exception (msg_cannot_parse filename ++ sh))) /\
  (~ fatal_header data ->
     exists ws y a,
       output (run filename fs) = (ws ++ [line_of y a filename])%list /\
       status (run filename fs) = Ret tt /\
       Forall (is_warning filename) ws /\
       forall s, In s ws -> forall y' a', s <> line_of y' a' filename).
Proof.
  apply (error_iff_unparsable_copyright "A.java" _ file_unparsable_copyright);
    [reflexivity | discriminate].
Defined.

(** C2 as stated fails at the empty file: the double-header pattern does
    not match, and yet the run ends with an error and prints no line. *)
Lemma error_on_empty_file_counterexample :
  ~ fatal_header "" /\
  status (run "Empty.java" (one_file "Empty.java" ""))
  = Raise (ValueError "cannot mmap an empty file") /\
  output (run "Empty.java" (one_file "Empty.java" "")) = [].
Proof.
  split; [|split; reflexivity].
  intros (m & sh & H & _). vm_compute in H. discriminate.
Qed.

(** ** Recognising a double header *)

Lemma all_chars_dotall s : all_chars (cmatch true Dot) s = true.
Proof. induction s as [|a s IH]; simpl; auto. Qed.

Lemma search_here p s :
  match_here (pat_dotall p) (pat_re p) s <> None -> search p s <> None.
Proof.
  intros H. unfold search.
  apply (search_from_app_some (pat_dotall p) (pat_re p) "" s H).
Qed.

Lemma two_blocks_match h1 sep h2 rest :
  header_gap sep -> search p_double (two_blocks h1 sep h2 rest) <> None.
Proof.
  intros Hsep. apply search_here. unfold match_here, p_double, two_blocks.
  cbn [pat_re pat_dotall].
  do 4 re_step.
  apply star_min_some; [apply all_chars_dotall|].
  assert (Hb : forall m k,
             (forall w s m', k w s m' <> None) ->
             mre true (Str "/*" +++ Grp 2 (StarLazy Dot) +++ Str "*/")
               ("/*" ++ h2 ++ "*/" ++ rest) m k <> None).
  { intros m k Hk. do 5 re_step.
    apply star_min_some; [apply all_chars_dotall|].
    re_step. apply Hk. }
  do 3 re_step.
  destruct Hsep as [-> | [-> | [-> | ->]]]; rewrite ?append_assoc.
  - do 5 re_step. apply Hb. discriminate.
  - do 4 re_step. apply mre_Opt_some. re_step. apply Hb. discriminate.
  - apply mre_Opt_some. do 5 re_step. apply Hb. discriminate.
  - apply mre_Opt_some. do 4 re_step. apply mre_Opt_some. re_step.
    apply Hb. discriminate.
Qed.

Lemma search_from_here dotall r s m :
  match_here dotall r s = Some m -> search_from dotall r s = Some m.
Proof. intros H. destruct s; unfold search_from; now rewrite H. Qed.

Lemma star_min_here dotall cl s k x :
  k "" s = Some x -> star_min dotall cl s k = Some x.
Proof. intros H. destruct s; simpl; now rewrite H. Qed.

(** ** First occurrences *)

(** A literal found at the start of [y ++ z] lies within [y], or [y] is a
    proper beginning of it and the rest of it starts [z]. *)
Lemma drop_prefix_app_inv l : forall y z t,
  drop_prefix l (y ++ z) = Some t ->
  (exists t', drop_prefix l y = Some t') \/
  (exists l2, l = y ++ l2 /\ l2 <> "" /\ drop_prefix l2 z = Some t).
Proof.
  induction l as [|b l IH]; intros y z t H.
  - left. now exists y.
  - destruct y as [|a y].
    + right. exists (String b l). repeat split; [discriminate|exact H].
    + cbn [append drop_prefix] in H |- *.
      destruct (Ascii.eqb_spec b a) as [->|]; [|discriminate].
      destruct (IH y z t H) as [[t' Ht]|(l2 & -> & Hl2 & Hd)].
      * left. now exists t'.
      * right. now exists l2.
Qed.

Lemma occurs_cons_false l a s :
  occurs l (String a s) = false ->
  drop_prefix l (String a s) = None /\ occurs l s = false.
Proof.
  cbn [occurs]. destruct (drop_prefix l (String a s)); [discriminate|auto].
Qed.

Lemma occurs_app_false l x y :
  occurs l (x ++ y) = false -> occurs l y = false.
Proof.
  induction x as [|a x IH]; intros H; [exact H|].
  apply IH. now apply (occurs_cons_false l a (x ++ y)).
Qed.

(** When the first character of a literal does not come again in it, text
    without the literal, followed by the literal, has the literal at its
    end for the first time. *)
Lemma absent_before_literal c l' pre rest :
  all_chars (fun a => negb (Ascii.eqb a c)) l' = true ->
  occurs (String c l') pre = false ->
  absent (String c l') pre (String c l' ++ rest) = true.
Proof.
  intros Hc. induction pre as [|a pre IH]; intros H; [reflexivity|].
  apply occurs_cons_false in H. destruct H as [Hd Ho].
  cbn [absent].
  destruct (drop_prefix (String c l') (String a pre ++ String c l' ++ rest))
    as [t|] eqn:E; [|now apply IH].
  exfalso. apply drop_prefix_app_inv in E.
  destruct E as [[t' Ht]|(l2 & Hl & Hl2 & Hd2)]; [congruence|].
  cbn [append] in Hl. inversion Hl; subst a l'.
  destruct l2 as [|c2 l2]; [congruence|].
  cbn [append drop_prefix] in Hd2.
  destruct (Ascii.eqb_spec c2 c) as [->|]; [|discriminate].
  rewrite all_chars_app in Hc. cbn [all_chars] in Hc.
  rewrite Ascii.eqb_refl in Hc. cbn in Hc.
  now rewrite andb_false_r in Hc.
Qed.

Lemma absent_close h rest :
  occurs "*/" h = false -> absent "*/" h ("*/" ++ rest) = true.
Proof. now apply absent_before_literal. Qed.

Lemma absent_open h rest :
  occurs "/*" h = false -> absent "/*" h ("/*" ++ rest) = true.
Proof. now apply absent_before_literal. Qed.

(** The lazy group of a block runs to the [*/] that closes the block. *)
Ltac skip_block H :=
  rewrite star_min_skip;
  [ | apply all_chars_dotall
    | intros ? ? ? ?; first [apply mre_Str_neq | apply mre_Str_fail];
      eapply absent_cut; [apply absent_close; exact H | eassumption | assumption] ];
  apply star_min_here; cbv beta; rewrite append_nil_r.

(** A well-formed double header is parsed into its two blocks. *)
Lemma double_header_groups pre0 h1 sep h2 rest :
  occurs "/*" pre0 = false -> header_gap sep ->
  occurs "*/" h1 = false -> occurs "*/" h2 = false ->
  exists m,
    search p_double (pre0 ++ two_blocks h1 sep h2 rest) = Some m /\
    group m 1 = Some h1 /\ group m 2 = Some h2.
Proof.
  intros H0 Hsep H1 H2. unfold search, p_double, two_blocks.
  cbn [pat_re pat_dotall].
  rewrite search_from_absent by (now apply absent_open).
  destruct Hsep as [-> | [-> | [-> | ->]]]; rewrite ?append_assoc;
    eexists; (split; [apply search_from_here; unfold match_here;
                      repeat re_step; skip_block H1; repeat re_step | ]).
  - skip_block H2. re_step. reflexivity.
  - split; reflexivity.
  - apply mre_Opt_take. repeat re_step. skip_block H2. re_step. reflexivity.
  - split; reflexivity.
  - apply mre_Opt_take. repeat re_step. skip_block H2. re_step. reflexivity.
  - split; reflexivity.
  - apply mre_Opt_take. repeat re_step. apply mre_Opt_take. repeat re_step.
    skip_block H2. re_step. reflexivity.
  - split; reflexivity.
Qed.

(** C7, amended: a file that begins with a block comment, a line break
    (LF or CR LF), at most one empty line, and another block comment is
    recognised as a double header, whatever the blocks hold: the pattern
    matches and the cascade goes on with the two blocks it captured. *)
Theorem adjacent_blocks_take_double_branch (h1 sep h2 rest : string) :
  header_gap sep ->
  exists m b1 b2,
    search p_double (two_blocks h1 sep h2 rest) = Some m /\
    group m 1 = Some b1 /\ group m 2 = Some b2 /\
    forall filename a0 y0 w,
      extract filename (two_blocks h1 sep h2 rest) a0 y0 w
      = match search p_C b2 with
        | Some _ => copyright_branch filename (Some b2) w
        | None => original_branch filename (two_blocks h1 sep h2 rest)
                    a0 y0 (Some b1) (Some b2) w
        end.
Proof.
  intros Hsep. pose proof (two_blocks_match h1 sep h2 rest Hsep) as H.
  destruct (search p_double (two_blocks h1 sep h2 rest)) as [m|] eqn:E;
    [|congruence].
  destruct (double_groups _ _ E) as (b1 & b2 & H1 & H2).
  exists m, b1, b2. repeat split; auto.
  intros filename a0 y0 w. now rewrite extract_unfold, E, H2, H1.
Qed.

Lemma adjacent_blocks_take_double_branch_witness :
  exists m b1 b2,
    search p_double (two_blocks " a " (LF ++ LF) " b " "") = Some m /\
    group m 1 = Some b1 /\ group m 2 = Some b2 /\
    forall filename a0 y0 w,
      extract filename (two_blocks " a " (LF ++ LF) " b " "") a0 y0 w
      = match search p_C b2 with
        | Some _ => copyright_branch filename (Some b2) w
        | None => original_branch filename
                    (two_blocks " a " (LF ++ LF) " b " "")
                    a0 y0 (Some b1) (Some b2) w
        end.
Proof.
  apply (adjacent_blocks_take_double_branch " a " (LF ++ LF) " b " "").
  right. left. reflexivity.
Defined.

(** C7 as stated fails with two empty lines between the blocks: the
    double-header pattern does not match and the file ends in the
    no-headers case. *)
Lemma two_blank_lines_counterexample :
  1 <= 2 /\
  search p_double (two_blocks " a " (LF ++ blank_lines 2) " b " LF) = None /\
  output (run "A.java"
            (one_file "A.java"
               (two_blocks " a " (LF ++ blank_lines 2) " b " LF)))
  = [msg_no_headers "A.java"; line_of "2016" "Barak Naveh" "A.java"].
Proof. split; [lia|]. split; reflexivity. Qed.

(** ** Searching past the places where no match begins *)

Lemma no_match_in_cut p pre rest x : forall y,
  no_match_in p pre rest = true -> pre = x ++ y -> y <> "" ->
  match_here (pat_dotall p) (pat_re p) (y ++ rest) = None.
Proof.
  revert pre; induction x as [|a x IH]; intros pre y H -> Hy.
  - destruct y as [|b y]; [congruence|]. cbn [append no_match_in] in H.
    cbn [append].
    destruct (match_here (pat_dotall p) (pat_re p) (String b (y ++ rest)));
      [discriminate | reflexivity].
  - cbn [append no_match_in] in H.
    destruct (match_here (pat_dotall p) (pat_re p)
                (String a ((x ++ y) ++ rest))); [discriminate|].
    now apply (IH (x ++ y)).
Qed.

Lemma search_first p pre rest :
  no_match_in p pre rest = true -> search p (pre ++ rest) = search p rest.
Proof.
  intros H. unfold search. apply search_from_skip. intros x y Hxy Hy.
  now apply (no_match_in_cut p pre rest x y).
Qed.

Lemma search_from_eq dotall r s :
  search_from dotall r s
  = match match_here dotall r s with
    | Some m => Some m
    | None => match s with
              | String _ s' => search_from dotall r s'
              | EmptyString => None
              end
    end.
Proof. destruct s; reflexivity. Qed.

(** A search that succeeds found its match at the first place where one
    begins. *)
Lemma search_first_inv p s m :
  search p s = Some m ->
  exists pre s', s = pre ++ s' /\ no_match_in p pre s' = true /\
                 match_here (pat_dotall p) (pat_re p) s' = Some m.
Proof.
  unfold search. induction s as [|a s IH]; rewrite search_from_eq; intros H.
  - destruct (match_here (pat_dotall p) (pat_re p) "") eqn:E; [|discriminate].
    inversion H; subst. now exists "", "".
  - destruct (match_here (pat_dotall p) (pat_re p) (String a s)) eqn:E.
    + inversion H; subst. now exists "", (String a s).
    + apply IH in H. destruct H as (pre & s' & -> & Hn & H).
      exists (String a pre), s'. cbn [append no_match_in]. rewrite E. auto.
Qed.

(** The lazy star stops at the first place where the continuation
    succeeds. *)
Lemma star_min_inv_first dotall cl s : forall k res,
  star_min dotall cl s k = Some res ->
  exists w s', s = w ++ s' /\ all_chars (cmatch dotall cl) w = true /\
               k w s' = Some res /\
               forall x y, w = x ++ y -> y <> "" -> k x (y ++ s') = None.
Proof.
  induction s as [|a s IH]; intros k res H; simpl in H.
  - destruct (k "" "") eqn:E; [|discriminate].
    exists "", "". inversion H; subst. repeat split; auto.
    intros x y Hxy Hy. destruct x; destruct y; try discriminate. congruence.
  - destruct (k "" (String a s)) eqn:E.
    + exists "", (String a s). inversion H; subst. repeat split; auto.
      intros x y Hxy Hy. destruct x; destruct y; try discriminate. congruence.
    + destruct (cmatch dotall cl a) eqn:Ha; [|discriminate].
      apply IH in H. destruct H as (w & s' & -> & Hw & Hk & Hmin).
      exists (String a w), s'. cbn [append all_chars]. rewrite Ha, Hw.
      repeat split; auto.
      intros x y Hxy Hy. destruct x as [|b x].
      * cbn [append] in Hxy. subst y. exact E.
      * cbn [append] in Hxy. inversion Hxy; subst. now apply Hmin.
Qed.

(** ** The copyright statement of the second block *)

(** The branch, once its two searches are known. *)
Lemma copyright_branch_run filename sh w m y raw :
  search p_copyright sh = Some m ->
  group m 1 = Some y -> group m 4 = Some raw ->
  copyright_branch filename (Some sh) w
  = (w, Ret (Some (sub_class c_period ""
                     match search p_and raw with
                     | Some p => match group p 1 with
                                 | Some a => a
                                 | None => raw
                                 end
                     | None => raw
                     end),
             Some y)).
Proof.
  intros H Hy Hraw. unfold copyright_branch.
  cbv [bind ret re_search re_sub]. rewrite H, Hy, Hraw.
  destruct (search p_and raw) as [p|] eqn:E; [|reflexivity].
  destruct (search_binds _ _ _ 1 E eq_refl) as [a Ha]. now rewrite Ha.
Qed.

(** The double-header branch, once the two blocks are known. *)
Lemma extract_double filename data a0 y0 w m h1 h2 :
  search p_double data = Some m ->
  group m 1 = Some h1 -> group m 2 = Some h2 ->
  extract filename data a0 y0 w
  = match search p_C h2 with
    | Some _ => copyright_branch filename (Some h2) w
    | None => original_branch filename data a0 y0 (Some h1) (Some h2) w
    end.
Proof. intros Hm G1 G2. now rewrite extract_unfold, Hm, G2, G1. Qed.

Lemma double_not_empty data m : search p_double data = Some m -> data <> "".
Proof. intros H ->. vm_compute in H. discriminate. Qed.

Lemma first_statement_2003_parsed pre tail :
  no_match_in p_copyright pre (stmt_2003 ++ tail) = true -> line_end tail ->
  exists m raw,
    search p_copyright (pre ++ stmt_2003 ++ tail) = Some m /\
    group m 1 = Some "2003" /\ group m 4 = Some raw /\
    (raw = "Barak Naveh and Contributors." \/
     raw = "Barak Naveh and Contributors." ++ CR).
Proof.
  intros Hpre Htail. rewrite (search_first _ _ _ Hpre). unfold search.
  destruct Htail as [-> | [[t ->] | [t ->]]];
    eexists; eexists;
    (split; [apply search_from_here; vm_compute; reflexivity|]);
    repeat split; auto.
Qed.

(** C3 as stated fails when an earlier line of the second block holds
    another copyright statement: the year and the authors are those of the
    earlier statement. *)
Lemma earlier_statement_counterexample :
  (exists m pre tail,
     search p_double file_two_statements = Some m /\
     group m 1 = Some " First block. " /\
     group m 2 = Some (pre ++ stmt_2003 ++ tail) /\ line_end tail) /\
  extract "A.java" file_two_statements
    (Some default_authors) (Some default_year)
    (mkWorld (one_file "A.java" file_two_statements) [])
  = (mkWorld (one_file "A.java" file_two_statements) [],
     Ret (Some "John Sichi", Some "2005")) /\
  output (run "A.java" (one_file "A.java" file_two_statements))
  = [line_of "2005" "John Sichi" "A.java"].
Proof.
  split; [|split; reflexivity].
  eexists.
  exists (LF ++ " * (C) Copyright 2005-2008, by John Sichi and Contributors."
          ++ LF ++ " * "), (LF ++ " ").
  repeat split; try reflexivity.
  right. left. eexists. reflexivity.
Qed.

(** C3, amended: in a file with a double header (the double-header
    pattern matches and captures the blocks [h1] and [h2]) whose second
    block has the statement
    [(C) Copyright 2003-2008, by Barak Naveh and Contributors.] up to the
    end of its line, with no match of the copyright pattern beginning
    before it in the block, the year extracted is 2003 and the authors
    extracted are [Barak Naveh]; that is what the line printed carries.
    A [(C)] before the statement that begins no match of the pattern
    changes nothing. *)
Theorem copyright_statement_year_and_authors
    (filename : string) (fs : string -> option string)
    (data : string) (m : groups) (h1 pre tail : string) :
  fs filename = Some data ->
  search p_double data = Some m ->
  group m 1 = Some h1 -> group m 2 = Some (pre ++ stmt_2003 ++ tail) ->
  no_match_in p_copyright pre (stmt_2003 ++ tail) = true -> line_end tail ->
  extract filename data (Some default_authors) (Some default_year)
    (mkWorld fs [])
  = (mkWorld fs [], Ret (Some "Barak Naveh", Some "2003")) /\
  run filename fs
  = (fs, ["(C) Copyright 2003-2016, by Barak Naveh, and Contributors. "
          ++ filename], Ret tt).
Proof.
  intros Hf Hm G1 G2 Hpre Htail.
  assert (He : extract filename data
                 (Some default_authors) (Some default_year) (mkWorld fs [])
               = (mkWorld fs [], Ret (Some "Barak Naveh", Some "2003"))).
  { rewrite (extract_double filename data _ _ _ m h1 _ Hm G1 G2).
    assert (HC : search p_C (pre ++ stmt_2003 ++ tail) <> None).
    { apply search_C_occurs, occurs_app_r. reflexivity. }
    destruct (search p_C (pre ++ stmt_2003 ++ tail)); [|congruence].
    destruct (first_statement_2003_parsed pre tail Hpre Htail)
      as (q & raw & Hq & Gy & Graw & Hraw).
    rewrite (copyright_branch_run filename _ _ q "2003" raw Hq Gy Graw).
    destruct Hraw as [-> | ->]; reflexivity. }
  split; [exact He|].
  apply (run_of_extract filename fs data [] "Barak Naveh" "2003" Hf);
    [exact (double_not_empty data m Hm) | exact He].
Qed.

Lemma copyright_statement_year_and_authors_witness :
  let data := two_blocks sample_first_block LF
                ((sample_second_block_start ++ "(C) see below" ++ LF ++ " * ")
                 ++ stmt_2003 ++ sample_second_block_end) LF in
  extract "DirectedGraph.java" data
    (Some default_authors) (Some default_year)
    (mkWorld (one_file "DirectedGraph.java" data) [])
  = (mkWorld (one_file "DirectedGraph.java" data) [],
     Ret (Some "Barak Naveh", Some "2003")) /\
  run "DirectedGraph.java" (one_file "DirectedGraph.java" data)
  = (one_file "DirectedGraph.java" data,
     ["(C) Copyright 2003-2016, by Barak Naveh, and Contributors. "
      ++ "DirectedGraph.java"], Ret tt).
Proof.
  eapply (copyright_statement_year_and_authors "DirectedGraph.java"
            (one_file "DirectedGraph.java"
               (two_blocks sample_first_block LF
                  ((sample_second_block_start ++ "(C) see below" ++ LF
                    ++ " * ")
                   ++ stmt_2003 ++ sample_second_block_end) LF))
            _ _ sample_first_block
            (sample_second_block_start ++ "(C) see below" ++ LF ++ " * ")
            sample_second_block_end).
  - reflexivity.
  - vm_compute. reflexivity.
  - reflexivity.
  - reflexivity.
  - vm_compute. reflexivity.
  - right. left. eexists. reflexivity.
Defined.

(** ** Stripping the authors at the last [ and] *)

Lemma space_and_fail y m k :
  space_and_at y = false ->
  mre false (Grp 2 (Chr Space +++ Str "and")) y m k = None.
Proof.
  intros H. rewrite mre_Grp_eq, mre_Cat_eq.
  destruct y as [|a y]; [reflexivity|].
  rewrite mre_Chr_eq. cbn [cmatch]. cbn [space_and_at] in H.
  destruct (is_space a); [|reflexivity].
  apply mre_Str_neq. cbn [andb] in H.
  now destruct (drop_prefix "and" y).
Qed.

Lemma no_space_and_cut x : forall y,
  no_space_and (x ++ y) = true -> space_and_at y = false.
Proof.
  induction x as [|a x IH]; intros y H.
  - destruct y; cbn [append no_space_and] in H;
      apply andb_true_iff in H; destruct H as [H _];
      now apply negb_true_iff in H.
  - apply IH. cbn [append no_space_and] in H.
    apply andb_true_iff in H. tauto.
Qed.

Lemma search_and_last a c b :
  all_chars not_lf a = true -> is_space c = true -> no_space_and b = true ->
  exists m, search p_and (a ++ String c ("and" ++ b)) = Some m
            /\ group m 1 = Some a.
Proof.
  intros Ha Hc Hb. eexists. split.
  - unfold search, p_and. cbn [pat_re pat_dotall].
    apply search_from_here. unfold match_here.
    rewrite mre_Cat_eq, mre_Grp_eq, mre_Star_eq.
    apply star_max_last.
    + exact Ha.
    + rewrite mre_Grp_eq, mre_Cat_eq, mre_Chr_eq. cbn [cmatch]. rewrite Hc.
      rewrite mre_Str_eq. reflexivity.
    + intros x y Hxy Hx. apply space_and_fail.
      destruct x as [|c0 x]; [congruence|].
      cbn [append] in Hxy. inversion Hxy; subst c0.
      destruct x as [|x1 x]; cbn [append] in *; [now subst y|].
      destruct x as [|x2 x]; cbn [append] in *;
        [inversion H1; now subst y|].
      destruct x as [|x3 x]; cbn [append] in *;
        [inversion H1; now subst y|].
      inversion H1; subst. now apply (no_space_and_cut x).
  - reflexivity.
Qed.

(** C10, amended: in the branch of a second block with [(C)], the raw
    author string (group 4 of the copyright pattern) never has a line
    feed: it is a piece of one line of the block and runs to the end of
    that line.  When it has several [ and], the strip cuts it at the last
    one: with [raw = a ++ c ++ "and" ++ b], [c] a white space and no
    [\sand] in [b], the authors are [a] without its periods; so
    [Alice and Bob and Contributors] gives [Alice and Bob]. *)
Theorem raw_authors_one_line_last_and :
  (forall sh m,
     search p_copyright sh = Some m ->
     exists raw before after,
       group m 4 = Some raw /\ all_chars not_lf raw = true /\
       sh = before ++ raw ++ after /\
       (after = "" \/ exists t, after = LF ++ t)) /\
  (forall filename sh w m y a c b,
     search p_copyright sh = Some m ->
     group m 1 = Some y ->
     group m 4 = Some (a ++ String c ("and" ++ b)) ->
     is_space c = true -> no_space_and b = true ->
     copyright_branch filename (Some sh) w
     = (w, Ret (Some (sub_class c_period "" a), Some y))) /\
  run "A.java" (one_file "A.java" file_two_authors)
  = (one_file "A.java" file_two_authors,
     ["(C) Copyright 2003-2016, by Alice and Bob, and Contributors. A.java"],
     Ret tt).
Proof.
  split; [|split].
  - intros sh m H.
    destruct (copyright_groups sh m H)
      as (y & raw & before & after & _ & Hraw & Hlf & Hsh & Hafter).
    exists raw, before, after. auto.
  - intros filename sh w m y a c b H Hy Hraw Hc Hb.
    destruct (copyright_groups sh m H)
      as (y' & raw & _ & _ & _ & Hraw' & Hlf & _).
    assert (raw = a ++ String c ("and" ++ b)) by congruence. subst raw.
    rewrite all_chars_app in Hlf. apply andb_true_iff in Hlf.
    destruct Hlf as [Ha _].
    destruct (search_and_last a c b Ha Hc Hb) as (m' & Hm' & Ga).
    rewrite (copyright_branch_run filename sh w m y _ H Hy Hraw).
    now rewrite Hm', Ga.
  - reflexivity.
Qed.

Lemma raw_authors_one_line_last_and_witness :
  search p_copyright "(C) Copyright 2003, by Alice and Bob and Contributors"
  <> None /\
  is_space " " = true /\ no_space_and " Contributors" = true /\
  forall filename w,
    copyright_branch filename
      (Some "(C) Copyright 2003, by Alice and Bob and Contributors") w
    = (w, Ret (Some (sub_class c_period "" "Alice and Bob"), Some "2003")).
Proof.
  split; [discriminate|]. split; [reflexivity|]. split; [reflexivity|].
  intros filename w.
  apply (proj1 (proj2 raw_authors_one_line_last_and) filename
           "(C) Copyright 2003, by Alice and Bob and Contributors" w
           [(0, "(C) Copyright 2003, by Alice and Bob and Contributors");
            (4, "Alice and Bob and Contributors"); (3, "by"); (1, "2003")]
           "2003" "Alice and Bob" " "%char " Contributors");
    reflexivity.
Defined.

(** C10 as stated fails when only white space follows [by] on the line of
    the statement: the raw author string is then taken from the next
    line. *)
Lemma authors_from_next_line_counterexample :
  occurs "(C) Copyright" statement_first_line = true /\
  occurs "(C)" statement_second_line = false /\
  (exists m,
     search p_copyright
       (statement_first_line ++ LF ++ statement_second_line ++ LF) = Some m /\
     group m 4 = Some "Alice Smith") /\
  occurs "Alice Smith" statement_first_line = false /\
  occurs "Alice Smith" statement_second_line = true /\
  output (run "A.java" (one_file "A.java" file_statement_two_lines))
  = ["(C) Copyright 2003-2016, by Alice Smith, and Contributors. A.java"].
Proof.
  repeat split; try reflexivity.
  eexists. split; reflexivity.
Qed.

(** ** The year range of the first block *)

Lemma times_fail n : forall s m k p,
  (forall w s1 m1, p s1 = false -> k w s1 m1 = None) ->
  digits_then n s p = false ->
  mre false (Times n Digit) s m k = None.
Proof.
  induction n as [|n IH]; intros s m k p Hk H; cbn [Times digits_then] in *.
  - rewrite mre_Eps_eq. now apply Hk.
  - rewrite mre_Cat_eq. destruct s as [|a s]; [reflexivity|].
    rewrite mre_Chr_eq. cbn [cmatch].
    destruct (is_digit a); [|reflexivity]. cbn [andb] in H.
    apply (IH s m _ p); [|exact H].
    intros w s1 m1 Hp. now apply Hk.
Qed.

Lemma range_fail s m k :
  range_at s = false ->
  mre false (Times 4 Digit +++ Str "-" +++ Grp 1 (Times 4 Digit)) s m k = None.
Proof.
  intros H. rewrite mre_Cat_eq. unfold range_at in H.
  eapply times_fail; [|exact H].
  intros w s1 m1 Hp. cbv beta in Hp |- *. rewrite mre_Cat_eq.
  destruct (drop_prefix "-" s1) as [s2|] eqn:E.
  - apply drop_prefix_sound in E. subst s1. rewrite mre_Str_eq, mre_Grp_eq.
    apply (times_fail 4 s2 _ _ (fun _ => true)); [discriminate|exact Hp].
  - now apply mre_Str_neq.
Qed.

Lemma range_ok y1 y2 post m k :
  is_year y1 = true -> is_year y2 = true ->
  mre false (Times 4 Digit +++ Str "-" +++ Grp 1 (Times 4 Digit))
    (y1 ++ "-" ++ y2 ++ post) m k
  = k (y1 ++ "-" ++ y2) post ((1, y2) :: m).
Proof.
  intros H1 H2.
  destruct y1 as [|a1 [|a2 [|a3 [|a4 [|? ?]]]]]; try discriminate.
  destruct y2 as [|b1 [|b2 [|b3 [|b4 [|? ?]]]]]; try discriminate.
  cbn [is_year] in H1, H2.
  apply andb_true_iff in H1; destruct H1 as [H1 A4].
  apply andb_true_iff in H1; destruct H1 as [H1 A3].
  apply andb_true_iff in H1; destruct H1 as [A1 A2].
  apply andb_true_iff in H2; destruct H2 as [H2 B4].
  apply andb_true_iff in H2; destruct H2 as [H2 B3].
  apply andb_true_iff in H2; destruct H2 as [B1 B2].
  cbn [Times append].
  repeat (first [rewrite mre_Cat_eq | rewrite mre_Chr_eq | rewrite mre_Eps_eq
                | rewrite mre_Grp_eq ];
          cbn [cmatch]; cbv beta).
  rewrite A1, A2, A3, A4.
  change (String "-" (String b1 (String b2 (String b3 (String b4 post)))))
    with ("-" ++ String b1 (String b2 (String b3 (String b4 post)))).
  rewrite mre_Str_eq.
  repeat (first [rewrite mre_Cat_eq | rewrite mre_Chr_eq | rewrite mre_Eps_eq
                | rewrite mre_Grp_eq ];
          cbn [cmatch]; cbv beta).
  rewrite B1, B2, B3, B4. reflexivity.
Qed.

Lemma no_range_in_cut mid rest x : forall y,
  no_range_in mid rest = true -> mid = x ++ y -> y <> "" ->
  range_at (y ++ rest) = false.
Proof.
  revert mid; induction x as [|a x IH]; intros mid y H -> Hy.
  - destruct y as [|b y]; [congruence|]. cbn [append no_range_in] in H.
    apply andb_true_iff in H. destruct H as [H _].
    now apply negb_true_iff in H.
  - cbn [append no_range_in] in H. apply andb_true_iff in H.
    destruct H as [_ H]. now apply (IH (x ++ y)).
Qed.

(** The branch without [(C)], when the year comes from the first block. *)
Lemma original_branch_range filename data a0 y0 h1 h2 fs out q y :
  search p_initial h2 = None ->
  search p_range h1 = Some q -> group q 1 = Some y ->
  exists ws a,
    original_branch filename data (Some a0) (Some y0) (Some h1) (Some h2)
      (mkWorld fs out)
    = (mkWorld fs (out ++ ws), Ret (Some a, Some y))
    /\ (ws = [] \/ ws = [msg_no_author_2nd filename]).
Proof.
  intros Hi Hr Hy. unfold original_branch.
  cbv [bind ret re_search warn _warning print py_str files stdout].
  rewrite Hi, Hr, Hy.
  destruct (search p_original h2) as [p|] eqn:E1;
    [destruct (search_binds _ _ _ 1 E1 eq_refl) as [a Ha]; rewrite Ha|
     destruct (search p_author data) as [p2|] eqn:E2;
     [destruct (search_binds _ _ _ 3 E2 eq_refl) as [a Ha]; rewrite Ha|]].
  - exists [], a. rewrite app_nil_r. auto.
  - exists [], a. rewrite app_nil_r. auto.
  - exists [msg_no_author_2nd filename], a0. auto.
Qed.

Lemma times_inv n : forall s m k res,
  mre false (Times n Digit) s m k = Some res ->
  exists w s', s = w ++ s' /\ String.length w = n /\
               all_chars is_digit w = true /\ k w s' m = Some res.
Proof.
  induction n as [|n IH]; intros s m k res H; cbn [Times] in H.
  - rewrite mre_Eps_eq in H. now exists "", s.
  - rewrite mre_Cat_eq in H. destruct s as [|a s]; [discriminate|].
    rewrite mre_Chr_eq in H. cbn [cmatch] in H.
    destruct (is_digit a) eqn:Ha; [|discriminate].
    apply IH in H. destruct H as (w & s' & -> & Hl & Hw & H).
    exists (String a w), s'. cbn [append String.length all_chars].
    rewrite Ha, Hw, Hl. auto.
Qed.

Lemma four_digits_year w :
  String.length w = 4 -> all_chars is_digit w = true -> is_year w = true.
Proof.
  intros Hl Hw.
  destruct w as [|a [|b [|c [|d [|? ?]]]]]; try discriminate.
  cbn [all_chars] in Hw. cbn [is_year].
  destruct (is_digit a); [|discriminate].
  destruct (is_digit b); [|discriminate].
  destruct (is_digit c); [|discriminate].
  destruct (is_digit d); [reflexivity|discriminate].
Qed.

(** Where the range part of the pattern matches, a year range begins, and
    group 1 is its second year. *)
Lemma range_inv s m k res :
  mre false (Times 4 Digit +++ Str "-" +++ Grp 1 (Times 4 Digit)) s m k
  = Some res ->
  exists y1 y2 post,
    s = y1 ++ "-" ++ y2 ++ post /\ is_year y1 = true /\ is_year y2 = true /\
    k (y1 ++ "-" ++ y2) post ((1, y2) :: m) = Some res.
Proof.
  intros H. rewrite mre_Cat_eq in H. apply times_inv in H.
  destruct H as (y1 & s1 & -> & L1 & D1 & H). cbv beta in H.
  rewrite mre_Cat_eq in H.
  destruct (drop_prefix "-" s1) as [s2|] eqn:E;
    [|rewrite mre_Str_neq in H by exact E; discriminate].
  apply drop_prefix_sound in E. subst s1.
  rewrite mre_Str_eq, mre_Grp_eq in H. apply times_inv in H.
  destruct H as (y2 & post & -> & L2 & D2 & H). cbv beta in H.
  exists y1, y2, post. repeat split; auto using four_digits_year.
Qed.

Lemma range_at_inv s :
  range_at s = true ->
  exists y1 y2 post,
    s = y1 ++ "-" ++ y2 ++ post /\ is_year y1 = true /\ is_year y2 = true.
Proof.
  intros H.
  destruct (mre false (Times 4 Digit +++ Str "-" +++ Grp 1 (Times 4 Digit))
              s [] accept) as [res|] eqn:E.
  - apply range_inv in E. destruct E as (y1 & y2 & post & -> & H1 & H2 & _).
    now exists y1, y2, post.
  - destruct (range_at s) eqn:R; [|discriminate].
    exfalso. clear H. revert E. unfold range_at in R.
    destruct s as [|a1 [|a2 [|a3 [|a4 s]]]]; cbn [digits_then] in R;
      rewrite ?andb_false_r in R; try discriminate.
    destruct (is_digit a1) eqn:A1; [|discriminate].
    destruct (is_digit a2) eqn:A2; [|discriminate].
    destruct (is_digit a3) eqn:A3; [|discriminate].
    destruct (is_digit a4) eqn:A4; [|discriminate].
    cbn [andb] in R.
    destruct (drop_prefix "-" s) as [s2|] eqn:Ed; [|discriminate].
    apply drop_prefix_sound in Ed. subst s.
    destruct s2 as [|b1 [|b2 [|b3 [|b4 s]]]]; cbn [digits_then] in R;
      rewrite ?andb_false_r in R; try discriminate.
    destruct (is_digit b1) eqn:B1; [|discriminate].
    destruct (is_digit b2) eqn:B2; [|discriminate].
    destruct (is_digit b3) eqn:B3; [|discriminate].
    destruct (is_digit b4) eqn:B4; [|discriminate].
    change (String a1 (String a2 (String a3 (String a4
              ("-" ++ String b1 (String b2 (String b3 (String b4 s))))))))
      with (String a1 (String a2 (String a3 (String a4 ""))) ++ "-"
            ++ String b1 (String b2 (String b3 (String b4 ""))) ++ s).
    rewrite range_ok; [discriminate | |]; cbn [is_year];
      rewrite ?A1, ?A2, ?A3, ?A4, ?B1, ?B2, ?B3, ?B4; reflexivity.
Qed.

Lemma no_range_in_intro mid : forall rest,
  (forall x y, mid = x ++ y -> y <> "" -> range_at (y ++ rest) = false) ->
  no_range_in mid rest = true.
Proof.
  induction mid as [|a mid IH]; intros rest H; [reflexivity|].
  cbn [no_range_in]. apply andb_true_iff. split.
  - apply negb_true_iff. apply (H "" (String a mid)); [reflexivity|discriminate].
  - apply IH. intros x y -> Hy. now apply (H (String a x) y).
Qed.

(** The range pattern matches at a [(C)] that a year range follows on its
    line. *)
Lemma range_match_here mid y1 y2 post :
  all_chars not_lf mid = true -> is_year y1 = true -> is_year y2 = true ->
  match_here false (pat_re p_range) ("(C)" ++ mid ++ y1 ++ "-" ++ y2 ++ post)
  <> None.
Proof.
  intros Hmid Hy1 Hy2. unfold match_here, p_range. cbn [pat_re].
  rewrite mre_Cat_eq, mre_Str_eq, mre_Cat_eq, mre_StarLazy_eq.
  apply star_min_some; [exact Hmid|].
  rewrite range_ok by assumption. discriminate.
Qed.

(** ... and its year is the second year of the first range after the
    [(C)]. *)
Lemma range_match_first mid y1 y2 post :
  all_chars not_lf mid = true ->
  no_range_in mid (y1 ++ "-" ++ y2 ++ post) = true ->
  is_year y1 = true -> is_year y2 = true ->
  exists m,
    match_here false (pat_re p_range) ("(C)" ++ mid ++ y1 ++ "-" ++ y2 ++ post)
    = Some m /\ group m 1 = Some y2.
Proof.
  intros Hmid Hno Hy1 Hy2. eexists. split.
  - unfold match_here, p_range. cbn [pat_re].
    rewrite mre_Cat_eq, mre_Str_eq, mre_Cat_eq, mre_StarLazy_eq.
    rewrite star_min_skip.
    + apply star_min_here. rewrite range_ok by assumption. reflexivity.
    + exact Hmid.
    + intros x y Hxy Hy. apply range_fail.
      now apply (no_range_in_cut mid _ x y).
  - reflexivity.
Qed.

(** What the range pattern finds is the first range of the block. *)
Lemma range_search_first h1 q y :
  search p_range h1 = Some q -> group q 1 = Some y -> first_range h1 y.
Proof.
  intros Hq Gy. apply search_first_inv in Hq.
  destruct Hq as (pre & s' & -> & Hpre & H).
  change (pat_dotall p_range) with false in H.
  unfold match_here, p_range in H. cbn [pat_re] in H.
  rewrite mre_Cat_eq in H.
  destruct (drop_prefix "(C)" s') as [s1|] eqn:E;
    [|rewrite mre_Str_neq in H by exact E; discriminate].
  apply drop_prefix_sound in E. subst s'.
  rewrite mre_Str_eq, mre_Cat_eq, mre_StarLazy_eq in H.
  apply star_min_inv_first in H.
  destruct H as (mid & s2 & -> & Hmid & H & Hmin). cbv beta in H.
  apply range_inv in H.
  destruct H as (y1 & y2 & post & -> & Hy1 & Hy2 & H).
  unfold accept in H. inversion H; subst q. cbn [group Nat.eqb] in Gy.
  inversion Gy; subst y.
  exists pre, mid, y1, post. repeat split; auto.
  apply no_range_in_intro. intros x z -> Hz.
  match goal with
  | |- range_at ?t = false => destruct (range_at t) eqn:R; [|reflexivity]
  end.
  exfalso. specialize (Hmin x z eq_refl Hz). cbv beta in Hmin.
  apply range_at_inv in R. destruct R as (u1 & u2 & upost & Eu & U1 & U2).
  rewrite Eu, range_ok in Hmin by assumption. discriminate.
Qed.

(** C4, amended: in a file with a double header (the double-header
    pattern matches and captures the blocks [h1] and [h2]) whose second
    block has no [(C)] and no year followed by [Initial], if the first
    block has a [(C)] followed on the same line by a year range, whatever
    comes before that [(C)], then no default-year warning is printed and
    the year extracted is the second year of the first such range: the
    one after which the first match of the range pattern ends, that is,
    the nearest range after the first [(C)] that has a range after it on
    its line.  It is the second year of the given range when no match of
    the pattern begins before its [(C)] and no range begins between the
    [(C)] and it. *)
Theorem range_after_C_gives_second_year
    (filename : string) (fs : string -> option string)
    (data : string) (m : groups) (pre mid y1 y2 post h2 : string) :
  fs filename = Some data ->
  search p_double data = Some m ->
  group m 1 = Some (pre ++ "(C)" ++ mid ++ y1 ++ "-" ++ y2 ++ post) ->
  group m 2 = Some h2 ->
  occurs "(C)" h2 = false -> search p_initial h2 = None ->
  all_chars not_lf mid = true ->
  is_year y1 = true -> is_year y2 = true ->
  exists ws a y,
    run filename fs = (fs, (ws ++ [line_of y a filename])%list, Ret tt) /\
    ~ In (msg_no_year_2nd filename) ws /\
    first_range (pre ++ "(C)" ++ mid ++ y1 ++ "-" ++ y2 ++ post) y /\
    (no_match_in p_range pre ("(C)" ++ mid ++ y1 ++ "-" ++ y2 ++ post) = true ->
     no_range_in mid (y1 ++ "-" ++ y2 ++ post) = true ->
     y = y2).
Proof.
  intros Hf Hm G1 G2 HC Hi Hmid Hy1 Hy2.
  assert (Hs : search p_range (pre ++ "(C)" ++ mid ++ y1 ++ "-" ++ y2 ++ post)
               <> None).
  { unfold search. apply search_from_app_some.
    exact (range_match_here mid y1 y2 post Hmid Hy1 Hy2). }
  destruct (search p_range (pre ++ "(C)" ++ mid ++ y1 ++ "-" ++ y2 ++ post))
    as [q|] eqn:Hq; [clear Hs | congruence].
  destruct (search_binds _ _ _ 1 Hq eq_refl) as [y Gq].
  destruct (original_branch_range filename data
              default_authors default_year _ h2 fs [] q y Hi Hq Gq)
    as (ws & a & Hb & Hws).
  exists ws, a, y. split; [|split; [|split]].
  - apply (run_of_extract filename fs data ws a y Hf);
      [exact (double_not_empty data m Hm)|].
    rewrite (extract_double filename data _ _ _ m _ h2 Hm G1 G2).
    destruct (search p_C h2) eqn:E; [|exact Hb].
    assert (occurs "(C)" h2 = true) by (apply search_C_occurs; congruence).
    congruence.
  - destruct Hws as [-> | ->]; simpl; [tauto|].
    intros [H|[]]. discriminate.
  - exact (range_search_first _ q y Hq Gq).
  - intros Hpre Hno. rewrite (search_first _ _ _ Hpre) in Hq.
    destruct (range_match_first mid y1 y2 post Hmid Hno Hy1 Hy2)
      as (q' & Hq' & Gq').
    unfold search in Hq. change (pat_dotall p_range) with false in Hq.
    rewrite (search_from_here _ _ _ _ Hq') in Hq.
    inversion Hq; subst q'. congruence.
Qed.

Lemma range_after_C_gives_second_year_witness :
  output (run "A.java" (one_file "A.java" file_second_C_range))
  = [msg_no_author_2nd "A.java"; line_of "2008" "Barak Naveh" "A.java"] /\
  exists ws a y,
    run "A.java" (one_file "A.java" file_second_C_range)
    = (one_file "A.java" file_second_C_range,
       (ws ++ [line_of y a "A.java"])%list, Ret tt) /\
    ~ In (msg_no_year_2nd "A.java") ws /\
    first_range (" (C) foo" ++ LF ++ " (C) 2003-2008 ") y /\
    y = "2008".
Proof.
  split; [reflexivity|].
  destruct (range_after_C_gives_second_year "A.java"
              (one_file "A.java" file_second_C_range)
              file_second_C_range
              [(0, two_blocks (" (C) foo" ++ LF ++ " (C) 2003-2008 ") LF
                     " Second block. " "");
               (2, " Second block. ");
               (1, " (C) foo" ++ LF ++ " (C) 2003-2008 ")]
              (" (C) foo" ++ LF ++ " ") " " "2003" "2008" " "
              " Second block. "
              eq_refl eq_refl eq_refl eq_refl eq_refl eq_refl eq_refl
              eq_refl eq_refl)
    as (ws & a & y & Hrun & Hw & Hfirst & Hy).
  exists ws, a, y. repeat split; [exact Hrun | exact Hw | exact Hfirst |].
  apply Hy; reflexivity.
Defined.

(** C4 as stated fails when the year range of the first block is not
    preceded by [(C)]: the default year is kept and the default-year
    warning is printed. *)
Lemma range_without_C_counterexample :
  (exists m, search p_double file_range_without_C = Some m /\
             group m 1 = Some " Written 2003-2008 by somebody. " /\
             group m 2 = Some " Second block. ") /\
  occurs "(C)" " Second block. " = false /\
  search p_initial " Second block. " = None /\
  occurs "2003-2008" " Written 2003-2008 by somebody. " = true /\
  output (run "A.java" (one_file "A.java" file_range_without_C))
  = [msg_no_author_2nd "A.java"; msg_no_year_2nd "A.java";
     line_of "2016" "Barak Naveh" "A.java"].
Proof.
  repeat split; try reflexivity.
  eexists. repeat split; reflexivity.
Qed.

(** ** The lines of the second block *)

Lemma digit_not_lf a : is_digit a = true -> not_lf a = true.
Proof.
  destruct a as [[] [] [] [] [] [] [] []]; vm_compute; congruence.
Qed.











(** * Further properties of the script *)

(** ** What the groups hold *)

(** A successful match consumed a text of the pattern's language, and a
    group that it binds holds a text of the language of its content,
    unless it was bound before. *)
Lemma mre_groups_lang dotall r : forall s m k res,
  mre dotall r s m k = Some res ->
  exists w s' m',
    lang dotall r w /\ k w s' m' = Some res /\
    forall n, group m' n = group m n \/
              exists body x, grp_in r n body /\ group m' n = Some x
                             /\ lang dotall body x.
Proof.
  induction r as [|l|cl|r1 IH1 r2 IH2|i r1 IH1|r1 IH1|cl|cl];
    intros s m k res H.
  - rewrite mre_Eps_eq in H. exists "", s, m. cbn [lang]. repeat split; auto.
  - cbv [mre] in H. destruct (drop_prefix l s) as [s'|]; [|discriminate].
    exists l, s', m. cbn [lang]. repeat split; auto.
  - destruct s as [|a s]; [discriminate|]. rewrite mre_Chr_eq in H.
    destruct (cmatch dotall cl a) eqn:Ha; [|discriminate].
    exists (String a ""), s, m. cbn [lang]. repeat split; eauto.
  - rewrite mre_Cat_eq in H.
    apply IH1 in H. destruct H as (w1 & s1 & m1 & L1 & H & G1).
    apply IH2 in H. destruct H as (w2 & s2 & m2 & L2 & H & G2).
    exists (w1 ++ w2), s2, m2. split; [cbn [lang]; eauto|].
    split; [exact H|].
    intros n. destruct (G2 n) as [E2|(body & x & Hin & Hx & L)].
    + rewrite E2. destruct (G1 n) as [E1|(body & x & Hin & Hx & L)];
        [now left|right].
      exists body, x. cbn [grp_in]. auto.
    + right. exists body, x. cbn [grp_in]. auto.
  - rewrite mre_Grp_eq in H.
    apply IH1 in H. destruct H as (w & s' & m' & L & H & G).
    exists w, s', ((i, w) :: m'). split; [exact L|]. split; [exact H|].
    intros n. cbn [group]. destruct (Nat.eqb_spec i n) as [->|Hn].
    + right. exists r1, w. cbn [grp_in]. auto.
    + destruct (G n) as [E|(body & x & Hin & Hx & Lx)]; [now left|right].
      exists body, x. cbn [grp_in]. auto.
  - rewrite mre_Opt_eq in H. destruct (mre dotall r1 s m k) eqn:E.
    + inversion H; subst. apply IH1 in E.
      destruct E as (w & s' & m' & L & E & G).
      exists w, s', m'. cbn [lang grp_in]. repeat split; auto.
    + exists "", s, m. cbn [lang]. repeat split; auto.
  - rewrite mre_Star_eq in H. apply star_max_inv in H.
    destruct H as (w & s' & _ & Hw & H). exists w, s', m. cbn [lang]. repeat split; auto.
  - rewrite mre_StarLazy_eq in H. apply star_min_inv in H.
    destruct H as (w & s' & _ & Hw & H). exists w, s', m. cbn [lang]. repeat split; auto.
Qed.

(** Every group of a search result, but group 0, holds a text of the
    language of a group of the pattern with that number. *)
Lemma search_group_lang p s m n x :
  search p s = Some m -> group m (S n) = Some x ->
  exists body, grp_in (pat_re p) (S n) body /\ lang (pat_dotall p) body x.
Proof.
  unfold search. intros H Hx. apply search_from_inv in H.
  destruct H as (pre & s' & _ & H). unfold match_here in H.
  apply mre_groups_lang in H. destruct H as (w & s1 & m1 & _ & H & G).
  unfold accept in H. inversion H; subst m. cbn [group Nat.eqb] in Hx.
  destruct (G (S n)) as [E|(body & y & Hin & Hy & L)].
  - rewrite E in Hx. discriminate.
  - exists body. split; [exact Hin|]. congruence.
Qed.

Lemma lang_times_digits n : forall w,
  lang false (Times n Digit) w ->
  all_chars is_digit w = true /\ String.length w = n.
Proof.
  induction n as [|n IH]; intros w H; cbn [Times lang] in H.
  - subst w. auto.
  - destruct H as (w1 & w2 & -> & (a & -> & Ha) & H2).
    destruct (IH w2 H2) as [Hd Hl].
    cbn [append all_chars String.length]. cbn [cmatch] in Ha.
    now rewrite Ha, Hd, Hl.
Qed.

Lemma lang_year w : lang false (Times 4 Digit) w -> is_number w.
Proof.
  intros H. destruct (lang_times_digits 4 w H) as [Hd Hl].
  split; [|exact Hd]. intros ->. discriminate.
Qed.

Lemma lang_plus_digit w : lang false (Plus Digit) w -> is_number w.
Proof.
  unfold Plus. cbn [lang cmatch].
  intros (w1 & w2 & -> & (a & -> & Ha) & H2).
  change (all_chars is_digit w2 = true) in H2.
  split; [discriminate|]. cbn [append all_chars]. now rewrite Ha, H2.
Qed.

(** Picks the one group of a pattern that has the number asked for. *)
Ltac pick_group H :=
  cbn [grp_in pat_re Plus Times
       p_double p_copyright p_and p_original p_author p_initial p_range
       p_single p_author_lazy p_since] in H;
  repeat match type of H with
         | _ \/ _ => destruct H as [H|H]
         | False => contradiction
         | _ /\ _ => let E := fresh "E" in
                     destruct H as [E H]; try discriminate E; clear E
         end;
  try subst.

Lemma copyright_year_number sh m y :
  search p_copyright sh = Some m -> group m 1 = Some y -> is_number y.
Proof.
  intros H Hy. destruct (search_group_lang _ _ _ _ _ H Hy) as (body & Hin & L).
  pick_group Hin. now apply lang_plus_digit.
Qed.

Lemma initial_year_number sh m y :
  search p_initial sh = Some m -> group m 2 = Some y -> is_number y.
Proof.
  intros H Hy. destruct (search_group_lang _ _ _ _ _ H Hy) as (body & Hin & L).
  pick_group Hin. now apply lang_year.
Qed.

Lemma range_year_number sh m y :
  search p_range sh = Some m -> group m 1 = Some y -> is_number y.
Proof.
  intros H Hy. destruct (search_group_lang _ _ _ _ _ H Hy) as (body & Hin & L).
  pick_group Hin. now apply lang_year.
Qed.

Lemma since_year_number sh m y :
  search p_since sh = Some m -> group m 2 = Some y -> is_number y.
Proof.
  intros H Hy. destruct (search_group_lang _ _ _ _ _ H Hy) as (body & Hin & L).
  pick_group Hin. now apply lang_year.
Qed.

Lemma and_group_one_line s m a :
  search p_and s = Some m -> group m 1 = Some a -> all_chars not_lf a = true.
Proof.
  intros H Ha. destruct (search_group_lang _ _ _ _ _ H Ha) as (body & Hin & L).
  pick_group Hin. exact L.
Qed.

Lemma original_group_one_line s m a :
  search p_original s = Some m -> group m 1 = Some a ->
  all_chars not_lf a = true.
Proof.
  intros H Ha. destruct (search_group_lang _ _ _ _ _ H Ha) as (body & Hin & L).
  pick_group Hin. exact L.
Qed.

Lemma author_group_one_line s m a :
  search p_author s = Some m -> group m 3 = Some a ->
  all_chars not_lf a = true.
Proof.
  intros H Ha. destruct (search_group_lang _ _ _ _ _ H Ha) as (body & Hin & L).
  pick_group Hin. exact L.
Qed.

(** ** What every run prints *)

Lemma sub_class_keeps f cl : forall s,
  all_chars f s = true -> all_chars f (sub_class cl "" s) = true.
Proof.
  induction s as [|a s IH]; intros H; [reflexivity|].
  cbn [all_chars] in H. apply andb_true_iff in H. destruct H as [Ha H].
  cbn [sub_class]. destruct (cmatch false cl a); cbn [append all_chars].
  - now apply IH.
  - now rewrite Ha, IH.
Qed.

Lemma sub_class_no_period s :
  all_chars not_period (sub_class c_period "" s) = true.
Proof.
  induction s as [|a s IH]; [reflexivity|].
  cbn [sub_class]. destruct (cmatch false c_period a) eqn:E;
    cbn [append all_chars]; [exact IH|].
  rewrite IH, andb_true_r. unfold not_period.
  cbn in E. now destruct (Ascii.eqb a ".").
Qed.

(** The branch of a [(C)] statement prints no warning; its year is group 1
    of the statement, a number, and its authors have neither a period nor
    a line feed. *)
Lemma copyright_branch_shape filename sh w m :
  search p_copyright sh = Some m ->
  exists a y,
    copyright_branch filename (Some sh) w = (w, Ret (Some a, Some y)) /\
    group m 1 = Some y /\ is_number y /\
    all_chars not_lf a = true /\ all_chars not_period a = true.
Proof.
  intros H.
  destruct (copyright_groups sh m H)
    as (y & raw & _ & _ & Hy & Hraw & Hlf & _).
  eexists. exists y. split; [|split; [exact Hy|split]].
  - exact (copyright_branch_run filename sh w m y raw H Hy Hraw).
  - exact (copyright_year_number sh m y H Hy).
  - split; [|apply sub_class_no_period].
    apply sub_class_keeps.
    destruct (search p_and raw) as [p|] eqn:E; [|exact Hlf].
    destruct (search_binds _ _ _ 1 E eq_refl) as [a Ha]. rewrite Ha.
    exact (and_group_one_line raw p a E Ha).
Qed.

Lemma warning_kinds_apart filename :
  ~ author_warning filename (msg_no_year_2nd filename) /\
  ~ author_warning filename (msg_no_year filename) /\
  ~ year_warning filename (msg_no_author_2nd filename) /\
  ~ year_warning filename (msg_no_author filename).
Proof.
  unfold author_warning, year_warning.
  repeat split; intros [H|[H|H]]; apply String.eqb_eq in H; discriminate H.
Qed.

Lemma default_year_number : is_number default_year.
Proof. split; [discriminate|reflexivity]. Qed.

Ltac one_warning :=
  match goal with
  | H : In _ [_] |- _ => destruct H as [<-|[]]
  | H : In _ [_; _] |- _ => destruct H as [<-|[<-|[]]]
  | H : In _ [] |- _ => destruct H
  end.

Ltac close_extracted filename :=
  pose proof (warning_kinds_apart filename) as (N1 & N2 & N3 & N4);
  unfold extracted_ok;
  repeat match goal with
         | |- _ /\ _ => split
         | |- length _ <= _ => simpl; lia
         | |- Forall _ _ => repeat constructor; unfold is_warning; simpl; tauto
         | |- forall s, In s _ -> _ =>
             let s := fresh "s" in let Hs := fresh "Hs" in
             let Hw := fresh "Hw" in
             intros s Hs Hw; one_warning;
             first [reflexivity | contradiction
                   | exfalso; eauto ]
         | |- is_number _ => first [assumption | apply default_year_number]
         | |- all_chars not_lf _ = true => first [assumption | reflexivity]
         end.

Lemma original_branch_shape filename data h1 h2 fs out :
  exists ws a y,
    original_branch filename data (Some default_authors) (Some default_year)
      (Some h1) (Some h2) (mkWorld fs out)
    = (mkWorld fs (out ++ ws), Ret (Some a, Some y))
    /\ extracted_ok filename ws a y.
Proof.
  unfold original_branch.
  cbv [bind ret re_search warn _warning print py_str files stdout].
  destruct (search p_original h2) as [p|] eqn:E1;
    [destruct (search_binds _ _ _ 1 E1 eq_refl) as [a Ha]; rewrite Ha;
     pose proof (original_group_one_line _ _ _ E1 Ha) as La|
     destruct (search p_author data) as [p2|] eqn:E2;
     [destruct (search_binds _ _ _ 3 E2 eq_refl) as [a Ha]; rewrite Ha;
      pose proof (author_group_one_line _ _ _ E2 Ha) as La|]];
  (destruct (search p_initial h2) as [q|] eqn:E3;
    [destruct (search_binds _ _ _ 2 E3 eq_refl) as [y Hy]; rewrite Hy;
     pose proof (initial_year_number _ _ _ E3 Hy) as Ly|
     destruct (search p_range h1) as [q|] eqn:E4;
     [destruct (search_binds _ _ _ 1 E4 eq_refl) as [y Hy]; rewrite Hy;
      pose proof (range_year_number _ _ _ E4 Hy) as Ly|]]).
  - exists [], a, y. rewrite app_nil_r. split; [reflexivity|].
    close_extracted filename.
  - exists [], a, y. rewrite app_nil_r. split; [reflexivity|].
    close_extracted filename.
  - exists [msg_no_year_2nd filename], a, default_year.
    split; [reflexivity|]. close_extracted filename.
  - exists [], a, y. rewrite app_nil_r. split; [reflexivity|].
    close_extracted filename.
  - exists [], a, y. rewrite app_nil_r. split; [reflexivity|].
    close_extracted filename.
  - exists [msg_no_year_2nd filename], a, default_year.
    split; [reflexivity|]. close_extracted filename.
  - exists [msg_no_author_2nd filename], default_authors, y.
    split; [reflexivity|]. close_extracted filename.
  - exists [msg_no_author_2nd filename], default_authors, y.
    split; [reflexivity|]. close_extracted filename.
  - exists [msg_no_author_2nd filename; msg_no_year_2nd filename],
      default_authors, default_year.
    rewrite <- app_assoc. split; [reflexivity|]. close_extracted filename.
Qed.

Lemma single_branch_shape filename data fs out :
  exists ws y,
    single_branch filename data (Some default_authors) (Some default_year)
      (mkWorld fs out)
    = (mkWorld fs (out ++ ws), Ret (Some default_authors, Some y))
    /\ extracted_ok filename ws default_authors y.
Proof.
  unfold single_branch.
  cbv [bind ret re_search warn _warning print py_str files stdout].
  destruct (search p_author_lazy data) as [p|] eqn:E1;
  (destruct (search p_since data) as [q|] eqn:E2;
    [destruct (search_binds _ _ _ 2 E2 eq_refl) as [y Hy]; rewrite Hy;
     pose proof (since_year_number _ _ _ E2 Hy) as Ly|]).
  - exists [], y. rewrite app_nil_r. split; [reflexivity|].
    close_extracted filename.
  - exists [msg_no_year filename], default_year. split; [reflexivity|].
    close_extracted filename.
  - exists [msg_no_author filename], y. split; [reflexivity|].
    close_extracted filename.
  - exists [msg_no_author filename; msg_no_year filename], default_year.
    rewrite <- app_assoc. split; [reflexivity|]. close_extracted filename.
Qed.

(** Every return of the cascade satisfies [extracted_ok]. *)
Lemma extract_shape filename data fs out :
  ~ fatal_header data ->
  exists ws a y,
    extract filename data (Some default_authors) (Some default_year)
      (mkWorld fs out) = (mkWorld fs (out ++ ws), Ret (Some a, Some y))
    /\ extracted_ok filename ws a y.
Proof.
  intros Hok. rewrite extract_unfold.
  destruct (search p_double data) as [m|] eqn:E1.
  - destruct (double_groups _ _ E1) as (h1 & h2 & H1 & H2). rewrite H1, H2.
    destruct (search p_C h2) as [c|] eqn:E2.
    + destruct (search p_copyright h2) as [q|] eqn:E3.
      * destruct (copyright_branch_shape filename h2 (mkWorld fs out) q E3)
          as (a & y & Hb & _ & Ly & La & _).
        exists [], a, y. rewrite app_nil_r. split; [exact Hb|].
        close_extracted filename.
      * exfalso. apply Hok. exists m, h2. repeat split; auto.
        apply search_C_occurs. congruence.
    + apply original_branch_shape.
  - destruct (search p_single data) as [p|] eqn:E2.
    + destruct (single_branch_shape filename data fs out)
        as (ws & y & Hb & Hw).
      now exists ws, default_authors, y.
    + exists [msg_no_headers filename], default_authors, default_year.
      split; [reflexivity|]. close_extracted filename.
Qed.

Lemma line_of_one_line y a filename :
  is_number y -> all_chars not_lf a = true ->
  all_chars not_lf filename = true ->
  all_chars not_lf (line_of y a filename) = true.
Proof.
  intros [_ Hy] Ha Hf. unfold line_of.
  assert (Hy' : all_chars not_lf y = true).
  { clear -Hy. induction y as [|c y IH]; [reflexivity|].
    cbn [all_chars] in *. apply andb_true_iff in Hy. destruct Hy as [Hc Hy].
    now rewrite (digit_not_lf c Hc), IH. }
  rewrite !all_chars_app, Hy', Ha, Hf. reflexivity.
Qed.

(** X1: when the file does not exist the run ends in [open] with an
    [IOError]: nothing is printed and the file is not created. *)
Theorem missing_file_fails_in_open (filename : string)
    (fs : string -> option string) :
  fs filename = None ->
  run filename fs = (fs, [], Raise (IOError filename)).
Proof.
  intros Hf. unfold run, HeaderReformat.
  unfold bind at 1. unfold open_rplus at 1. cbn [files]. rewrite Hf.
  reflexivity.
Qed.

Lemma missing_file_fails_in_open_witness :
  run "B.java" (one_file "A.java" "class A {}")
  = (one_file "A.java" "class A {}", [], Raise (IOError "B.java")).
Proof. apply missing_file_fails_in_open. reflexivity. Defined.

(** X2: on every file that ends normally the line printed is
    [(C) Copyright Y-2016, by A, and Contributors. F] with [Y] a
    non-empty run of digits and [A] without line feed; so what is printed
    last is one line whenever the file name has no line feed. *)
Theorem printed_line_is_one_line (filename : string)
    (fs : string -> option string) (data : string) :
  fs filename = Some data -> data <> "" -> ~ fatal_header data ->
  exists ws y a,
    run filename fs = (fs, (ws ++ [line_of y a filename])%list, Ret tt) /\
    is_number y /\ all_chars not_lf a = true /\
    (all_chars not_lf filename = true ->
     all_chars not_lf (line_of y a filename) = true).
Proof.
  intros Hf Hd Hok.
  destruct (extract_shape filename data fs [] Hok)
    as (ws & a & y & He & _ & _ & _ & _ & Ly & La).
  exists ws, y, a. repeat split; auto.
  - exact (run_of_extract filename fs data ws a y Hf Hd He).
  - now destruct Ly.
  - now destruct Ly.
  - intros Hn. now apply line_of_one_line.
Qed.

Lemma printed_line_is_one_line_witness :
  exists ws y a,
    run "A.java" (one_file "A.java" file_author_tag)
    = (one_file "A.java" file_author_tag,
       (ws ++ [line_of y a "A.java"])%list, Ret tt) /\
    is_number y /\ all_chars not_lf a = true /\
    (all_chars not_lf "A.java" = true ->
     all_chars not_lf (line_of y a "A.java") = true).
Proof.
  apply (printed_line_is_one_line "A.java" _ file_author_tag).
  - reflexivity.
  - discriminate.
  - intros (m & sh & H & G & HC & _). vm_compute in H.
    inversion H; subst m. vm_compute in G. inversion G; subst sh.
    discriminate HC.
Defined.

(** X3: a run that ends normally prints at most two warnings before its
    line, and every warning is true: after a warning about the author the
    line has the default author, after a warning about the year it has the
    default year. *)
Theorem warnings_announce_defaults (filename : string)
    (fs : string -> option string) (data : string) :
  fs filename = Some data -> data <> "" -> ~ fatal_header data ->
  exists ws y a,
    run filename fs = (fs, (ws ++ [line_of y a filename])%list, Ret tt) /\
    length ws <= 2 /\ Forall (is_warning filename) ws /\
    (forall s, In s ws -> author_warning filename s -> a = default_authors) /\
    (forall s, In s ws -> year_warning filename s -> y = default_year).
Proof.
  intros Hf Hd Hok.
  destruct (extract_shape filename data fs [] Hok)
    as (ws & a & y & He & Hl & Hw & Ha & Hy & _).
  exists ws, y, a. repeat split; auto.
  exact (run_of_extract filename fs data ws a y Hf Hd He).
Qed.

Lemma warnings_announce_defaults_witness :
  exists ws y a,
    run "A.java" (one_file "A.java" "class A {}")
    = (one_file "A.java" "class A {}",
       (ws ++ [line_of y a "A.java"])%list, Ret tt) /\
    length ws <= 2 /\ Forall (is_warning "A.java") ws /\
    (forall s, In s ws -> author_warning "A.java" s -> a = default_authors) /\
    (forall s, In s ws -> year_warning "A.java" s -> y = default_year).
Proof.
  apply (warnings_announce_defaults "A.java" _ "class A {}").
  - reflexivity.
  - discriminate.
  - intros (m & sh & H & _). vm_compute in H. discriminate.
Defined.

(** X4: when the second block of a double header has a [(C)] and the
    copyright pattern parses it, the run prints no warning, the year of its
    line is group 1 of the statement, and the authors of its line have no
    period. *)
Theorem copyright_branch_prints_no_period (filename : string)
    (fs : string -> option string) (data : string)
    (m q : groups) (sh : string) :
  fs filename = Some data ->
  search p_double data = Some m -> group m 2 = Some sh ->
  occurs "(C)" sh = true -> search p_copyright sh = Some q ->
  exists y a,
    run filename fs = (fs, [line_of y a filename], Ret tt) /\
    group q 1 = Some y /\ all_chars not_period a = true.
Proof.
  intros Hf Hm G2 HC Hq.
  destruct (copyright_branch_shape filename sh (mkWorld fs []) q Hq)
    as (a & y & Hb & Gy & _ & _ & Hp).
  exists y, a. repeat split; auto.
  apply (run_of_extract filename fs data [] a y Hf);
    [exact (double_not_empty data m Hm)|].
  rewrite extract_unfold, Hm, G2.
  apply search_C_occurs in HC.
  destruct (search p_C sh); [exact Hb|congruence].
Qed.

Lemma copyright_branch_prints_no_period_witness :
  exists y a,
    run "A.java" (one_file "A.java" file_two_authors)
    = (one_file "A.java" file_two_authors, [line_of y a "A.java"], Ret tt) /\
    Some "2003" = Some y /\ all_chars not_period a = true.
Proof.
  eapply (copyright_branch_prints_no_period "A.java"
            (one_file "A.java" file_two_authors) _ _
            [(0, "(C) Copyright 2003, by Alice and Bob and Contributors");
             (4, "Alice and Bob and Contributors"); (3, "by"); (1, "2003")]).
  - reflexivity.
  - vm_compute. reflexivity.
  - reflexivity.
  - reflexivity.
  - reflexivity.
Defined.

(** ** The double header anywhere in the file *)

(** X5: the double-header pattern is searched in the whole file: after any
    text without [/*], two blocks without [*/] that a line break and at
    most one empty line separate are captured exactly, as groups 1 and 2,
    whatever follows them. *)
Theorem double_header_captures_blocks (pre0 h1 sep h2 rest : string) :
  occurs "/*" pre0 = false -> header_gap sep ->
  occurs "*/" h1 = false -> occurs "*/" h2 = false ->
  exists m,
    search p_double (pre0 ++ two_blocks h1 sep h2 rest) = Some m /\
    group m 1 = Some h1 /\ group m 2 = Some h2 /\
    forall filename a0 y0 w,
      extract filename (pre0 ++ two_blocks h1 sep h2 rest) a0 y0 w
      = match search p_C h2 with
        | Some _ => copyright_branch filename (Some h2) w
        | None => original_branch filename
                    (pre0 ++ two_blocks h1 sep h2 rest)
                    a0 y0 (Some h1) (Some h2) w
        end.
Proof.
  intros H0 Hsep H1 H2.
  destruct (double_header_groups pre0 h1 sep h2 rest H0 Hsep H1 H2)
    as (m & Hm & G1 & G2).
  exists m. repeat split; auto.
  intros filename a0 y0 w. exact (extract_double _ _ _ _ _ m h1 h2 Hm G1 G2).
Qed.

Lemma double_header_captures_blocks_witness :
  exists m,
    search p_double file_header_after_text = Some m /\
    group m 1 = Some " First block. " /\
    group m 2 = Some " Second block. " /\
    forall filename a0 y0 w,
      extract filename file_header_after_text a0 y0 w
      = match search p_C " Second block. " with
        | Some _ => copyright_branch filename (Some " Second block. ") w
        | None => original_branch filename file_header_after_text
                    a0 y0 (Some " First block. ") (Some " Second block. ") w
        end.
Proof.
  apply (double_header_captures_blocks ("package x;" ++ LF)
           " First block. " (CR ++ LF) " Second block. " LF).
  - reflexivity.
  - right. right. left. reflexivity.
  - reflexivity.
  - reflexivity.
Defined.

(** ** Authors without [ and] *)

Lemma search_and_none raw :
  no_space_and raw = true -> search p_and raw = None.
Proof.
  intros Hno. destruct (search p_and raw) as [m|] eqn:E; [|reflexivity].
  exfalso. unfold search in E. apply search_from_inv in E.
  destruct E as (pre & s' & -> & E). unfold match_here in E.
  apply mre_inv in E. destruct E as (w & s'' & m' & -> & L & _).
  cbn [pat_re p_and lang] in L.
  destruct L as (w1 & w2 & -> & _ & (x1 & x2 & -> & (c & -> & Hc) & ->)).
  cbn [cmatch] in Hc.
  assert (Hcut : space_and_at (String c ("and" ++ s'')) = false).
  { apply (no_space_and_cut (pre ++ w1)).
    replace ((pre ++ w1) ++ String c ("and" ++ s''))
      with (pre ++ (w1 ++ String c "" ++ "and") ++ s'');
      [exact Hno | now rewrite !append_assoc]. }
  cbn [space_and_at] in Hcut. rewrite Hc, drop_prefix_app in Hcut.
  discriminate.
Qed.

(** X6: when the raw author string of the copyright statement has no
    white space followed by [and], nothing is stripped: the authors are
    the raw string without its periods. *)
Theorem authors_without_and_are_kept (filename sh : string) (w : world)
    (m : groups) (y raw : string) :
  search p_copyright sh = Some m ->
  group m 1 = Some y -> group m 4 = Some raw ->
  no_space_and raw = true ->
  copyright_branch filename (Some sh) w
  = (w, Ret (Some (sub_class c_period "" raw), Some y)).
Proof.
  intros H Hy Hraw Hno.
  rewrite (copyright_branch_run filename sh w m y raw H Hy Hraw).
  now rewrite (search_and_none raw Hno).
Qed.

Lemma authors_without_and_are_kept_witness :
  copyright_branch "A.java" (Some "(C) Copyright 2010, by J. R. Doe")
    (mkWorld (one_file "A.java" "class A {}") [])
  = (mkWorld (one_file "A.java" "class A {}") [],
     Ret (Some (sub_class c_period "" "J. R. Doe"), Some "2010")).
Proof.
  apply (authors_without_and_are_kept "A.java"
           "(C) Copyright 2010, by J. R. Doe"
           (mkWorld (one_file "A.java" "class A {}") [])
           [(0, "(C) Copyright 2010, by J. R. Doe"); (4, "J. R. Doe");
            (3, "by"); (1, "2010")]);
    reflexivity.
Defined.

(** ** Greedy runs that stop at a character outside the class *)

Lemma star_max_to_stop dotall cl a rest k res :
  all_chars (cmatch dotall cl) a = true ->
  (rest = "" \/ exists c r, rest = String c r /\ cmatch dotall cl c = false) ->
  k a rest = Some res ->
  star_max dotall cl (a ++ rest) k = Some res.
Proof.
  intros Ha Hstop Hk.
  apply (star_max_last_line dotall cl a "" rest k res Ha Hstop Hk).
  intros x y Hxy Hx. destruct x; [congruence|discriminate].
Qed.

Lemma stop_space rest :
  starts_word rest = true ->
  rest = "" \/ exists c r, rest = String c r /\ cmatch false Space c = false.
Proof.
  destruct rest as [|c r]; [now left|]. cbn [starts_word cmatch].
  intros H. right. exists c, r. split; [reflexivity|].
  now apply negb_true_iff in H.
Qed.

Lemma stop_digit rest :
  ends_number rest = true ->
  rest = "" \/ exists c r, rest = String c r /\ cmatch false Digit c = false.
Proof.
  destruct rest as [|c r]; [now left|]. cbn [ends_number cmatch].
  intros H. right. exists c, r. split; [reflexivity|].
  now apply negb_true_iff in H.
Qed.

Lemma stop_line rest :
  at_line_end rest = true ->
  rest = "" \/ exists c r, rest = String c r /\ cmatch false Dot c = false.
Proof.
  destruct rest as [|c r]; [now left|]. cbn [at_line_end cmatch].
  intros H. right. exists c, r. split; [reflexivity|].
  unfold not_lf. now rewrite H.
Qed.

Lemma digit_not_space a : is_digit a = true -> is_space a = false.
Proof.
  destruct a as [[] [] [] [] [] [] [] []]; vm_compute; congruence.
Qed.

(** A greedy [\d+] on a number that a character other than a digit
    follows takes the number. *)
Lemma plus_digit_number y rest m k res :
  is_number y -> ends_number rest = true ->
  k y rest m = Some res ->
  mre false (Plus Digit) (y ++ rest) m k = Some res.
Proof.
  intros [Hne Hy] Hrest Hk. destruct y as [|d y]; [congruence|].
  cbn [all_chars] in Hy. apply andb_true_iff in Hy. destruct Hy as [Hd Hy].
  unfold Plus. cbn [append]. rewrite mre_Cat_eq, mre_Chr_eq.
  cbn [cmatch]. rewrite Hd, mre_Star_eq.
  apply star_max_to_stop; [exact Hy | now apply stop_digit | exact Hk].
Qed.

(** A greedy [\s*] on one blank that a word follows takes the blank. *)
Lemma star_space_blank rest m k res :
  starts_word rest = true ->
  k " " rest m = Some res ->
  mre false (Star Space) (" " ++ rest) m k = Some res.
Proof.
  intros Hrest Hk. rewrite mre_Star_eq.
  apply star_max_to_stop; [reflexivity | now apply stop_space | exact Hk].
Qed.

Lemma number_starts_word y rest : is_number y -> starts_word (y ++ rest) = true.
Proof.
  intros [Hne Hy]. destruct y as [|d y]; [congruence|].
  cbn [all_chars] in Hy. apply andb_true_iff in Hy. destruct Hy as [Hd _].
  cbn [append starts_word]. now rewrite (digit_not_space d Hd).
Qed.

Lemma word_starts_word name rest :
  name <> "" -> starts_word name = true -> starts_word (name ++ rest) = true.
Proof. destruct name; [congruence|auto]. Qed.

(** ** The copyright statement in general *)

(** The copyright pattern on [(C) Copyright Y1-Y2, by NAME]: group 1 is
    [Y1] and group 4 is [NAME], the rest of the line. *)
Lemma statement_parsed pre y1 y2 name tail :
  occurs "(C)" pre = false ->
  is_number y1 -> is_number y2 ->
  name <> "" -> starts_word name = true -> all_chars not_lf name = true ->
  at_line_end tail = true ->
  exists m,
    search p_copyright
      (pre ++ "(C) Copyright " ++ y1 ++ "-" ++ y2 ++ ", by " ++ name ++ tail)
    = Some m /\
    group m 1 = Some y1 /\ group m 4 = Some name.
Proof.
  intros Hpre Hy1 Hy2 Hne Hw Hlf Htail.
  unfold search, p_copyright. cbn [pat_re pat_dotall].
  rewrite search_from_absent
    by exact (absent_before_literal "(" "C)" pre
                (" Copyright " ++ y1 ++ "-" ++ y2 ++ ", by " ++ name ++ tail)
                eq_refl Hpre).
  change ("(C) Copyright " ++ y1 ++ "-" ++ y2 ++ ", by " ++ name ++ tail)
    with ("(C)" ++ " " ++ "Copyright" ++ " " ++ y1 ++ "-" ++ y2 ++ ","
          ++ " " ++ "by" ++ " " ++ name ++ tail).
  eexists. split.
  - apply search_from_here. unfold match_here.
    rewrite mre_Cat_eq, mre_Str_eq.
    rewrite mre_Cat_eq. apply star_space_blank; [reflexivity|].
    rewrite mre_Cat_eq, mre_Str_eq.
    rewrite mre_Cat_eq.
    apply star_space_blank; [now apply number_starts_word|].
    rewrite mre_Cat_eq, mre_Grp_eq.
    apply plus_digit_number; [exact Hy1 | reflexivity|].
    rewrite mre_Cat_eq. apply mre_Opt_take. rewrite mre_Str_eq.
    rewrite mre_Cat_eq. apply mre_Opt_take. rewrite mre_Grp_eq.
    apply plus_digit_number; [exact Hy2 | reflexivity|].
    rewrite mre_Cat_eq, mre_Str_eq.
    rewrite mre_Cat_eq. apply star_space_blank; [reflexivity|].
    rewrite mre_Cat_eq. apply mre_Opt_take. rewrite mre_Grp_eq, mre_Str_eq.
    rewrite mre_Cat_eq.
    apply star_space_blank; [now apply word_starts_word|].
    apply mre_Opt_take. rewrite mre_Grp_eq, mre_Star_eq.
    apply star_max_to_stop; [exact Hlf | now apply stop_line | reflexivity].
  - split; reflexivity.
Qed.

(** X7: in a double header whose second block has, as its first [(C)], a
    statement [(C) Copyright Y1-Y2, by A and Contributors.] that ends its
    line, with [Y1] and [Y2] numbers and [A] a name on one line that does
    not begin with white space, the line printed has the year [Y1] and the
    authors [A] without periods, and no warning is printed. *)
Theorem statement_gives_first_year_and_authors
    (filename : string) (fs : string -> option string)
    (data : string) (m : groups) (pre y1 y2 a tail : string) :
  fs filename = Some data ->
  search p_double data = Some m ->
  group m 2 = Some (pre ++ "(C) Copyright " ++ y1 ++ "-" ++ y2 ++ ", by "
                    ++ a ++ " and Contributors." ++ tail) ->
  occurs "(C)" pre = false ->
  is_number y1 -> is_number y2 ->
  a <> "" -> starts_word a = true -> all_chars not_lf a = true ->
  at_line_end tail = true ->
  run filename fs
  = (fs, [line_of y1 (sub_class c_period "" a) filename], Ret tt).
Proof.
  intros Hf Hm G2 Hpre Hy1 Hy2 Hne Hw Hlf Htail.
  assert (Hname : all_chars not_lf (a ++ " and Contributors.") = true)
    by (rewrite all_chars_app, Hlf; reflexivity).
  destruct (statement_parsed pre y1 y2 (a ++ " and Contributors.") tail
              Hpre Hy1 Hy2) as (q & Hq & Gy & Graw); auto.
  { destruct a; [congruence|discriminate]. }
  { now apply word_starts_word. }
  rewrite append_assoc in Hq.
  destruct (search_and_last a " "%char " Contributors." Hlf eq_refl eq_refl)
    as (p & Hp & Ga).
  apply (run_of_extract filename fs data [] _ y1 Hf);
    [exact (double_not_empty data m Hm)|].
  rewrite extract_unfold, Hm, G2.
  match goal with
  | |- match search p_C ?s with _ => _ end = _ =>
      assert (HC : search p_C s <> None)
        by (apply search_C_occurs, occurs_app_r; reflexivity);
      destruct (search p_C s); [|congruence]
  end.
  rewrite (copyright_branch_run filename _ _ q y1 _ Hq Gy Graw).
  change (a ++ " and Contributors.")
    with (a ++ String " " ("and" ++ " Contributors.")).
  now rewrite Hp, Ga.
Qed.

Lemma statement_gives_first_year_and_authors_witness :
  run "A.java"
    (one_file "A.java"
       (two_blocks " First block. " LF
          (LF ++ " * (C) Copyright 1999-2004, by J. Doe and Contributors."
           ++ LF ++ " ") LF))
  = (one_file "A.java"
       (two_blocks " First block. " LF
          (LF ++ " * (C) Copyright 1999-2004, by J. Doe and Contributors."
           ++ LF ++ " ") LF),
     [line_of "1999" (sub_class c_period "" "J. Doe") "A.java"], Ret tt).
Proof.
  eapply (statement_gives_first_year_and_authors "A.java" _ _ _
            (LF ++ " * ") "1999" "2004" "J. Doe" (LF ++ " ")).
  - reflexivity.
  - vm_compute. reflexivity.
  - reflexivity.
  - reflexivity.
  - split; [discriminate|reflexivity].
  - split; [discriminate|reflexivity].
  - discriminate.
  - reflexivity.
  - reflexivity.
  - reflexivity.
Defined.

(** ** The [@author] tag and the [@since] tag *)

Lemma drop_prefix_line l name tail :
  drop_prefix l name = None -> all_chars not_lf l = true ->
  at_line_end tail = true ->
  drop_prefix l (name ++ tail) = None.
Proof.
  intros Hn Hl Ht.
  destruct (drop_prefix l (name ++ tail)) as [t|] eqn:E; [|reflexivity].
  exfalso. apply drop_prefix_app_inv in E.
  destruct E as [[t' E]|(l2 & -> & Hl2 & E)]; [congruence|].
  destruct l2 as [|c2 l2]; [congruence|].
  destruct tail as [|c r]; [discriminate|].
  cbn [drop_prefix at_line_end] in E, Ht.
  destruct (Ascii.eqb_spec c2 c) as [->|]; [|discriminate].
  rewrite all_chars_app in Hl. cbn [all_chars] in Hl.
  unfold not_lf at 2 in Hl. rewrite Ht in Hl. cbn in Hl.
  now rewrite andb_false_r in Hl.
Qed.

(** The author pattern on [@author NAME]: group 3 is [NAME], the rest of
    the line. *)
Lemma author_tag_parsed pre sp name tail :
  occurs "@author" pre = false ->
  all_chars is_space sp = true ->
  name <> "" -> starts_word name = true ->
  drop_prefix "Original" name = None -> drop_prefix ":" name = None ->
  all_chars not_lf name = true -> at_line_end tail = true ->
  exists m,
    search p_author (pre ++ "@author" ++ sp ++ name ++ tail) = Some m /\
    group m 3 = Some name.
Proof.
  intros Hpre Hsp Hne Hw Ho Hc Hlf Htail.
  unfold search, p_author. cbn [pat_re pat_dotall].
  rewrite search_from_absent by (now apply absent_before_literal).
  eexists. split.
  - apply search_from_here. unfold match_here.
    rewrite mre_Cat_eq, mre_Str_eq, mre_Cat_eq, mre_Star_eq.
    apply star_max_to_stop;
      [exact Hsp | now apply stop_space, word_starts_word|].
    rewrite mre_Cat_eq.
    rewrite mre_Opt_skip
      by (rewrite mre_Grp_eq; apply mre_Str_neq;
          now apply drop_prefix_line).
    rewrite mre_Cat_eq.
    rewrite mre_Opt_skip
      by (rewrite mre_Grp_eq; apply mre_Str_neq;
          now apply drop_prefix_line).
    rewrite mre_Cat_eq, mre_Star_eq.
    apply (star_max_to_stop false Space "" (name ++ tail));
      [reflexivity | now apply stop_space, word_starts_word|].
    rewrite mre_Grp_eq, mre_Star_eq.
    apply star_max_to_stop; [exact Hlf | now apply stop_line | reflexivity].
  - reflexivity.
Qed.

(** The branch without [(C)], when the second block has no
    [Original Author:] line and the file has an [@author] tag. *)
Lemma original_branch_tag filename data a0 y0 h1 h2 fs out p2 a :
  search p_original h2 = None ->
  search p_author data = Some p2 -> group p2 3 = Some a ->
  exists ws y,
    original_branch filename data (Some a0) (Some y0) (Some h1) (Some h2)
      (mkWorld fs out)
    = (mkWorld fs (out ++ ws), Ret (Some a, Some y))
    /\ (ws = [] \/ ws = [msg_no_year_2nd filename]).
Proof.
  intros Ho Hp Ha. unfold original_branch.
  cbv [bind ret re_search warn _warning print py_str files stdout].
  rewrite Ho, Hp, Ha.
  destruct (search p_initial h2) as [q|] eqn:E3;
    [destruct (search_binds _ _ _ 2 E3 eq_refl) as [y Hy]; rewrite Hy|
     destruct (search p_range h1) as [q|] eqn:E4;
     [destruct (search_binds _ _ _ 1 E4 eq_refl) as [y Hy]; rewrite Hy|]].
  - exists [], y. rewrite app_nil_r. auto.
  - exists [], y. rewrite app_nil_r. auto.
  - exists [msg_no_year_2nd filename], y0. auto.
Qed.

(** X8: in a double header whose second block has neither [(C)] nor an
    [Original Author:] line, the first [@author] tag of the whole file
    gives the authors: with [@author], white space and then [NAME] to the
    end of the line, the line printed has the authors [NAME], and no
    warning about the author is printed. *)
Theorem author_tag_gives_authors
    (filename : string) (fs : string -> option string)
    (m : groups) (h1 h2 pre sp name tail : string) :
  fs filename = Some (pre ++ "@author" ++ sp ++ name ++ tail) ->
  search p_double (pre ++ "@author" ++ sp ++ name ++ tail) = Some m ->
  group m 1 = Some h1 -> group m 2 = Some h2 ->
  occurs "(C)" h2 = false -> search p_original h2 = None ->
  occurs "@author" pre = false ->
  all_chars is_space sp = true ->
  name <> "" -> starts_word name = true ->
  drop_prefix "Original" name = None -> drop_prefix ":" name = None ->
  all_chars not_lf name = true -> at_line_end tail = true ->
  exists ws y,
    run filename fs = (fs, (ws ++ [line_of y name filename])%list, Ret tt) /\
    (ws = [] \/ ws = [msg_no_year_2nd filename]).
Proof.
  intros Hf Hm G1 G2 HC Ho Hpre Hsp Hne Hw Hor Hcol Hlf Htail.
  destruct (author_tag_parsed pre sp name tail
              Hpre Hsp Hne Hw Hor Hcol Hlf Htail) as (p2 & Hp2 & Ga).
  destruct (original_branch_tag filename _ default_authors default_year
              h1 h2 fs [] p2 name Ho Hp2 Ga) as (ws & y & Hb & Hws).
  exists ws, y. split; [|exact Hws].
  apply (run_of_extract filename fs _ ws name y Hf);
    [exact (double_not_empty _ m Hm)|].
  rewrite (extract_double filename _ _ _ _ m h1 h2 Hm G1 G2).
  destruct (search p_C h2) eqn:E; [|exact Hb].
  assert (occurs "(C)" h2 = true) by (apply search_C_occurs; congruence).
  congruence.
Qed.

Lemma author_tag_gives_authors_witness :
  exists ws y,
    run "A.java" (one_file "A.java" file_author_tag)
    = (one_file "A.java" file_author_tag,
       (ws ++ [line_of y "John Smith" "A.java"])%list, Ret tt) /\
    (ws = [] \/ ws = [msg_no_year_2nd "A.java"]).
Proof.
  eapply (author_tag_gives_authors "A.java"
            (one_file "A.java" file_author_tag) _
            " First block. "
            (LF ++ " * 2004 : Initial version" ++ LF ++ " ")
            (two_blocks " First block. " LF
               (LF ++ " * 2004 : Initial version" ++ LF ++ " ")
               (LF ++ "/**" ++ LF ++ " * "))
            "  " "John Smith" (LF ++ " */" ++ LF)).
  - reflexivity.
  - vm_compute. reflexivity.
  - reflexivity.
  - reflexivity.
  - reflexivity.
  - reflexivity.
  - reflexivity.
  - reflexivity.
  - discriminate.
  - reflexivity.
  - reflexivity.
  - reflexivity.
  - reflexivity.
  - reflexivity.
Defined.

Lemma year_ok y post m k :
  is_year y = true ->
  mre false (Grp 2 (Times 4 Digit)) (y ++ post) m k
  = k y post ((2, y) :: m).
Proof.
  intros H.
  destruct y as [|a1 [|a2 [|a3 [|a4 [|? ?]]]]]; try discriminate.
  cbn [is_year] in H.
  apply andb_true_iff in H; destruct H as [H A4].
  apply andb_true_iff in H; destruct H as [H A3].
  apply andb_true_iff in H; destruct H as [A1 A2].
  cbn [Times append]. rewrite mre_Grp_eq.
  repeat (first [rewrite mre_Cat_eq | rewrite mre_Chr_eq | rewrite mre_Eps_eq];
          cbn [cmatch]; cbv beta).
  rewrite A1, A2, A3, A4. reflexivity.
Qed.

Lemma year_fail_last s m k :
  digits_then 4 s (fun _ => true) = false ->
  mre false (Grp 2 (Times 4 Digit)) s m k = None.
Proof.
  intros H. rewrite mre_Grp_eq.
  apply (times_fail 4 s m _ (fun _ => true)); [discriminate|exact H].
Qed.

Lemma no_year_in_cut mid rest x : forall y,
  no_year_in mid rest = true -> mid = x ++ y -> y <> "" ->
  digits_then 4 (y ++ rest) (fun _ => true) = false.
Proof.
  revert mid; induction x as [|a x IH]; intros mid y H -> Hy.
  - destruct y as [|b y]; [congruence|]. cbn [append no_year_in] in H.
    apply andb_true_iff in H. destruct H as [H _].
    now apply negb_true_iff in H.
  - cbn [append no_year_in] in H. apply andb_true_iff in H.
    destruct H as [_ H]. now apply (IH (x ++ y)).
Qed.

(** The since pattern finds the first four digits that follow, on its
    line, the first [@since]. *)
Lemma since_parsed pre mid y post :
  occurs "@since" pre = false -> all_chars not_lf mid = true ->
  no_year_in mid (y ++ post) = true -> is_year y = true ->
  exists m,
    search p_since (pre ++ "@since" ++ mid ++ y ++ post) = Some m
    /\ group m 2 = Some y.
Proof.
  intros Hpre Hmid Hno Hy. eexists. split.
  - unfold search, p_since. cbn [pat_re pat_dotall].
    rewrite search_from_absent by (now apply absent_before_literal).
    apply search_from_here. unfold match_here.
    rewrite mre_Cat_eq, mre_Str_eq, mre_Cat_eq, mre_Grp_eq, mre_StarLazy_eq.
    rewrite star_min_skip.
    + apply star_min_here. rewrite year_ok by assumption. reflexivity.
    + exact Hmid.
    + intros x y' Hxy Hy'. apply year_fail_last.
      now apply (no_year_in_cut mid _ x y').
  - reflexivity.
Qed.

(** X9: in a file with a single header and no double header, the first
    [@since] tag of the whole file gives the year: the first four digits
    that follow it on its line.  The line printed has that year and the
    default author, and no warning about the year is printed. *)
Theorem since_tag_gives_year
    (filename : string) (fs : string -> option string)
    (pre mid y post : string) :
  fs filename = Some (pre ++ "@since" ++ mid ++ y ++ post) ->
  search p_double (pre ++ "@since" ++ mid ++ y ++ post) = None ->
  search p_single (pre ++ "@since" ++ mid ++ y ++ post) <> None ->
  occurs "@since" pre = false -> all_chars not_lf mid = true ->
  no_year_in mid (y ++ post) = true -> is_year y = true ->
  exists ws,
    run filename fs
    = (fs, (ws ++ [line_of y default_authors filename])%list, Ret tt) /\
    (ws = [] \/ ws = [msg_no_author filename]).
Proof.
  intros Hf Hd Hs Hpre Hmid Hno Hy.
  destruct (since_parsed pre mid y post Hpre Hmid Hno Hy) as (q & Hq & Gy).
  assert (Hb : exists ws,
             single_branch filename (pre ++ "@since" ++ mid ++ y ++ post)
               (Some default_authors) (Some default_year) (mkWorld fs [])
             = (mkWorld fs ([] ++ ws), Ret (Some default_authors, Some y))
             /\ (ws = [] \/ ws = [msg_no_author filename])).
  { unfold single_branch.
    cbv [bind ret re_search warn _warning print py_str files stdout].
    rewrite Hq, Gy.
    destruct (search p_author_lazy _); [exists []|eexists]; split; eauto. }
  destruct Hb as (ws & Hb & Hws). exists ws. split; [|exact Hws].
  apply (run_of_extract filename fs _ ws default_authors y Hf).
  - destruct pre; discriminate.
  - rewrite extract_unfold, Hd.
    destruct (search p_single _); [exact Hb|congruence].
Qed.

Lemma since_tag_gives_year_witness :
  exists ws,
    run "Things.java" (one_file "Things.java" file_single_header)
    = (one_file "Things.java" file_single_header,
       (ws ++ [line_of "1999" default_authors "Things.java"])%list, Ret tt) /\
    (ws = [] \/ ws = [msg_no_author "Things.java"]).
Proof.
  apply (since_tag_gives_year "Things.java"
           (one_file "Things.java" file_single_header)
           ("/* This program is free software. */" ++ LF
            ++ "package org.example;" ++ LF ++ LF ++ "/**" ++ LF
            ++ " * A list of things." ++ LF ++ " *" ++ LF
            ++ " * @author John Smith" ++ LF ++ " * ")
           " " "1999"
           (LF ++ " */" ++ LF ++ "public class Things {}" ++ LF)).
  - reflexivity.
  - reflexivity.
  - discriminate.
  - reflexivity.
  - reflexivity.
  - reflexivity.
  - reflexivity.
Defined.

(** X10: in every file with a single header and no double header the
    [@author] tag is not used: the line printed has the default author,
    its year is a number, and at most two warnings come before it. *)
Theorem single_header_author_is_default
    (filename : string) (fs : string -> option string) (data : string) :
  fs filename = Some data ->
  search p_double data = None -> search p_single data <> None ->
  exists ws y,
    run filename fs
    = (fs, (ws ++ [line_of y default_authors filename])%list, Ret tt) /\
    is_number y /\ length ws <= 2.
Proof.
  intros Hf Hd Hs.
  destruct (single_branch_shape filename data fs [])
    as (ws & y & Hb & Hl & _ & _ & _ & Hy & _).
  exists ws, y. repeat split; try apply Hy; auto.
  apply (run_of_extract filename fs data ws default_authors y Hf).
  - intros ->. apply Hs. reflexivity.
  - rewrite extract_unfold, Hd.
    destruct (search p_single data); [exact Hb|congruence].
Qed.

Lemma single_header_author_is_default_witness :
  occurs "@author John Smith" file_single_header = true /\
  exists ws y,
    run "Things.java" (one_file "Things.java" file_single_header)
    = (one_file "Things.java" file_single_header,
       (ws ++ [line_of y default_authors "Things.java"])%list, Ret tt) /\
    is_number y /\ length ws <= 2.
Proof.
  split; [reflexivity|].
  apply (single_header_author_is_default "Things.java" _ file_single_header).
  - reflexivity.
  - reflexivity.
  - discriminate.
Defined.
